(** * Interview scheduling: availability aggregation, slot ranking and
      candidate self-scheduling

    A shallow embedding of [calendar_integration.py] (the free/busy
    aggregation of [GoogleCalendarIntegration] and [CalendarService]) and of
    [scheduling_engine.py] (constraint scoring, ranking, the interview
    scheduler and the candidate self-scheduling service), with the properties
    the specification states about them.

    Conventions of the model.
    - A timezone-aware [datetime] is the instant it denotes, an integer number
      of microseconds since the epoch; [isoformat] followed by
      [date_parser.parse] is the identity on instants, so a slot carries its
      instants rather than their ISO strings.
    - A [timedelta] is a number of microseconds.  The test
      [(e - s).total_seconds() / 60 >= duration_minutes] is taken exactly,
      [duration_minutes * 60_000_000 <= e - s]; it agrees with the
      floating-point test for every duration a calendar can hold.
    - Python [float]s are IEEE 754 binary64 numbers: Rocq's primitive floats.
    - A [dict] that is iterated is an insertion-ordered association list; a
      [dict] that is only read, written and deleted by key is a [gmap].
    - The remote calendars, the mail, the clock and the random generator are
      a world the methods read and change; each call on a collaborator is
      recorded, in order.  One method call reads the clock once.
    - Logging is left out.  Of the calendar integrations the Google one is
      embedded; [MicrosoftCalendarIntegration], [update_event] and
      [reschedule_interview] are not. *)

From Stdlib Require Import ZArith List Bool Lia Ascii String Permutation Sorted.
From Stdlib Require Import QArith Floats Uint63 DecimalString.
From stdpp Require Import gmap strings.
Import ListNotations.

(* Decimal literals such as 0.8 denote the nearest binary64 number, as in Python. *)
Set Warnings "-inexact-float".

Local Open Scope string_scope.
Local Open Scope list_scope.
Local Open Scope Z_scope.

(** ** Python values shared by both modules *)

(** Instants and durations, in microseconds. *)
Definition datetime := Z.
Definition timedelta := Z.

(** [timedelta(minutes=n)]. *)
Definition minutes (n : Z) : timedelta := n * 60000000.

(** The exceptions the modelled code raises, with their messages. *)
Inductive exn : Type :=
| ValueError (msg : string)
| AttributeError (msg : string)
| ExternalError (msg : string).

(** The outcome of a call that may raise. *)
Inductive result (A : Type) : Type :=
| Return (a : A)
| Raise (e : exn).
Arguments Return {A} a.
Arguments Raise {A} e.

(** An availability slot: the dict with keys [start_time], [end_time] and
    [duration_minutes]. *)
Record Slot : Type := mkSlot {
  start_time : datetime;
  end_time : datetime;
  duration_minutes : Z
}.

(** A busy period of the free/busy answer, [(busy_start, busy_end)]. *)
Definition busy_range : Type := datetime * datetime.

(** Insertion-ordered dictionaries: [d[k] = v] keeps the position of a key
    that is already present and appends a new key at the end. *)
Section OrderedDict.
Context {V : Type}.

Definition odict : Type := list (string * V).

Fixpoint odict_set (k : string) (v : V) (d : odict) : odict :=
  match d with
  | [] => [(k, v)]
  | (k', v') :: d' =>
      if String.eqb k' k then (k', v) :: d' else (k', v') :: odict_set k v d'
  end.

Fixpoint odict_get (k : string) (d : odict) : option V :=
  match d with
  | [] => None
  | (k', v') :: d' => if String.eqb k' k then Some v' else odict_get k d'
  end.

Definition odict_keys (d : odict) : list string := map fst d.
Definition odict_values (d : odict) : list V := map snd d.
End OrderedDict.
Arguments odict V : clear implicits.

(** ** calendar_integration.py *)

Module GoogleCalendarIntegration.

(** The part of a Google integration the availability query depends on: what
    lines 218-241 of [get_availability] produce for a user and a window, the
    parsed [busy_ranges], or [None] when any step there raises (no
    credentials, a failed free/busy request, an unknown timezone). *)
Record t : Type := mk {
  freebusy : string -> datetime -> datetime -> string -> option (list busy_range)
}.

(** [slot_duration = timedelta(minutes=30)]. *)
Definition slot_duration : timedelta := minutes 30.

(** The inner [for] loop with its [break]: the candidate
    [current_time, slot_end) is available when no busy period satisfies
    [current_time < busy_end and slot_end > busy_start]. *)
Definition is_available (busy_ranges : list busy_range)
    (current_time slot_end : datetime) : bool :=
  negb (existsb (fun b => (current_time <? snd b) && (fst b <? slot_end))
          busy_ranges).

(** The [while current_time + slot_duration <= end_time] loop; [fuel] bounds
    the number of iterations. *)
Fixpoint availability_loop (fuel : nat) (busy_ranges : list busy_range)
    (end_time current_time : datetime) : list Slot :=
  match fuel with
  | O => []
  | S fuel' =>
      if current_time + slot_duration <=? end_time then
        let slot_end := current_time + slot_duration in
        let rest :=
          availability_loop fuel' busy_ranges end_time
            (current_time + slot_duration) in
        if is_available busy_ranges current_time slot_end
        then mkSlot current_time slot_end (slot_duration / 1000000 / 60) :: rest
        else rest
      else []
  end.

(** The number of iterations the loop makes between [start_time] and
    [end_time]. *)
Definition iterations (start_time end_time : datetime) : nat :=
  Z.to_nat ((end_time - start_time) / slot_duration).

(** [get_availability]: the free 30-minute slots of the window, or the empty
    list when the [try] block raises. *)
Definition get_availability (g : t) (user_id : string)
    (start_time end_time : datetime) (timezone : string) : list Slot :=
  match freebusy g user_id start_time end_time timezone with
  | Some busy_ranges =>
      availability_loop (iterations start_time end_time) busy_ranges
        end_time start_time
  | None => []
  end.

End GoogleCalendarIntegration.

Module CalendarService.

(** The service object: the registered integrations by provider name and the
    provider of each user.  The integrations of the model are Google ones. *)
Record t : Type := mk {
  integrations : gmap string GoogleCalendarIntegration.t;
  user_providers : gmap string string
}.

(** [_get_integration]: both lookups use [dict.get] and a truth test, so an
    empty provider name counts as no provider. *)
Definition _get_integration (self : t) (user_id : string)
    : result GoogleCalendarIntegration.t :=
  match user_providers self !! user_id with
  | None | Some "" =>
      Raise (ValueError ("No calendar provider set for user " +:+ user_id))
  | Some provider =>
      match integrations self !! provider with
      | None =>
          Raise (ValueError ("Calendar provider " +:+ provider +:+ " not registered"))
      | Some integration => Return integration
      end
  end.

Definition get_availability (self : t) (user_id : string)
    (start_time end_time : datetime) (timezone : string)
    : result (list Slot) :=
  match _get_integration self user_id with
  | Raise e => Raise e
  | Return integration =>
      Return (GoogleCalendarIntegration.get_availability integration user_id
                start_time end_time timezone)
  end.

(** A range of a user, [(start, end)]. *)
Definition range : Type := datetime * datetime.

(** The two nested loops over [potential_common] and [user_slots] of
    [_find_common_slots]. *)
Definition intersect_ranges (potential_common user_slots : list range)
    (duration_minutes : Z) : list range :=
  flat_map (fun c =>
    flat_map (fun s =>
      let intersection_start := Z.max (fst c) (fst s) in
      let intersection_end := Z.min (snd c) (snd s) in
      if (intersection_start <? intersection_end)
         && (minutes duration_minutes <=? intersection_end - intersection_start)
      then [(intersection_start, intersection_end)]
      else []) user_slots) potential_common.

(** The loop over the users after the first; [None] is the early
    [return []]. *)
Fixpoint intersect_users (potential_common : list range)
    (others : list (list range)) (duration_minutes : Z)
    : option (list range) :=
  match others with
  | [] => Some potential_common
  | user_slots :: others' =>
      match intersect_ranges potential_common user_slots duration_minutes with
      | [] => None
      | new_common => intersect_users new_common others' duration_minutes
      end
  end.

Definition slot_range (s : Slot) : range := (start_time s, end_time s).

(** The final conversion back to slot dicts, with its duration filter;
    [int(duration)] truncates. *)
Definition to_common_slots (ranges : list range) (duration_minutes : Z)
    : list Slot :=
  flat_map (fun r =>
    if minutes duration_minutes <=? snd r - fst r
    then [mkSlot (fst r) (snd r) ((snd r - fst r) ÷ 60000000)]
    else []) ranges.

Definition _find_common_slots (all_availability : odict (list Slot))
    (duration_minutes : Z) (timezone : string) : list Slot :=
  match odict_values all_availability with
  | [] => []
  | first_user :: others =>
      match intersect_users (map slot_range first_user)
              (map (map slot_range) others) duration_minutes with
      | None => []
      | Some potential_common => to_common_slots potential_common duration_minutes
      end
  end.

(** The loop of [get_common_availability] that fills [all_availability];
    [None] is the [return []] of its [except] clause. *)
Fixpoint collect_availability (self : t) (user_ids : list string)
    (start_time end_time : datetime) (timezone : string)
    (all_availability : odict (list Slot)) : option (odict (list Slot)) :=
  match user_ids with
  | [] => Some all_availability
  | user_id :: user_ids' =>
      match get_availability self user_id start_time end_time timezone with
      | Raise _ => None
      | Return availability =>
          collect_availability self user_ids' start_time end_time timezone
            (odict_set user_id availability all_availability)
      end
  end.

Definition get_common_availability (self : t) (user_ids : list string)
    (start_time end_time : datetime) (duration_minutes : Z)
    (timezone : string) : result (list Slot) :=
  match collect_availability self user_ids start_time end_time timezone [] with
  | None => Return []
  | Some all_availability =>
      Return (_find_common_slots all_availability duration_minutes timezone)
  end.

(** The busy periods the service reads for a user: those its integration
    fetches, when there is an integration and the fetch succeeds. *)
Definition busy_intervals (self : t) (user_id : string)
    (start_time end_time : datetime) (timezone : string)
    : option (list busy_range) :=
  match _get_integration self user_id with
  | Raise _ => None
  | Return integration =>
      GoogleCalendarIntegration.freebusy integration user_id
        start_time end_time timezone
  end.

End CalendarService.

(** ** scheduling_engine.py: constraints and scoring *)

(** The arithmetic [_score_slots] performs on weights and scores.  Python
    evaluates it on binary64 floats; the aggregation is written once over the
    operations, so that it can also be read in exact arithmetic. *)
Class Arith (F : Type) : Type := {
  zero : F;                 (* the [0] both sums start from *)
  one : F;                  (* [1.0] *)
  add : F -> F -> F;
  mul : F -> F -> F;
  div : F -> F -> F;
  lt : F -> F -> bool       (* [x < y] *)
}.

#[global] Instance float_arith : Arith float := {|
  zero := 0%float;
  one := 1%float;
  add := PrimFloat.add;
  mul := PrimFloat.mul;
  div := PrimFloat.div;
  lt := PrimFloat.ltb
|}.

#[global] Instance Q_arith : Arith Q := {|
  zero := 0%Q;
  one := 1%Q;
  add := Qplus;
  mul := Qmult;
  div := Qdiv;
  lt := fun x y => match Qcompare x y with Lt => true | _ => false end
|}.

(** The [preferences] dict: the keys [_prepare_constraints] reads. *)
Record Preferences : Type := mkPreferences {
  preferred_time_of_day : option string;
  avoid_mondays : bool;
  avoid_fridays : bool;
  avoid_weekends : bool;
  preferred_start_date : option datetime;
  preferred_end_date : option datetime
}.

Definition no_preferences : Preferences :=
  mkPreferences None false false false None None.

(** The [context] dict handed to the constraints. *)
Record Context : Type := mkContext {
  ctx_timezone : string;
  ctx_duration_minutes : Z;
  ctx_participants : list string;
  ctx_preferences : Preferences
}.

(** A constraint object: its class name, its [weight] and its [evaluate]
    method, which also reads the clock (first argument). *)
Record SchedulingConstraint (F : Type) : Type := mkConstraint {
  class_name : string;
  weight : F;
  evaluate : datetime -> Slot -> Context -> F
}.
Arguments mkConstraint {F} class_name weight evaluate.
Arguments class_name {F} s.
Arguments weight {F} s.
Arguments evaluate {F} s now slot context.

(** The timezone database behind [pytz.timezone(name)]: the offset from UTC,
    in microseconds, of the zone at an instant. *)
Class TimeZones : Type := utcoffset : string -> datetime -> Z.

(** [astimezone(tz).hour] and [astimezone(tz).weekday()] (Monday is 0; the
    epoch fell on a Thursday). *)
Definition hour_of `{TimeZones} (timezone : string) (t : datetime) : Z :=
  ((t + utcoffset timezone t) / 3600000000) mod 24.
Definition weekday_of `{TimeZones} (timezone : string) (t : datetime) : Z :=
  ((t + utcoffset timezone t) / 86400000000 + 3) mod 7.

Definition BusinessHoursConstraint `{TimeZones} (start_hour end_hour : Z)
    (business_days : list Z) (weight : float) : SchedulingConstraint float :=
  mkConstraint "BusinessHoursConstraint" weight (fun _ slot context =>
    let day_of_week := weekday_of (ctx_timezone context) (start_time slot) in
    if negb (existsb (Z.eqb day_of_week) business_days) then 0%float
    else
      let hour := hour_of (ctx_timezone context) (start_time slot) in
      if (hour <? start_hour) || (end_hour <=? hour) then 0%float else 1%float).

(** [str.lower] on ASCII letters. *)
Definition lower_ascii (c : ascii) : ascii :=
  let n := N_of_ascii c in
  if (65 <=? n)%N && (n <=? 90)%N then ascii_of_N (n + 32) else c.
Fixpoint lower (s : string) : string :=
  match s with
  | EmptyString => EmptyString
  | String c s' => String (lower_ascii c) (lower s')
  end.

Definition TimePreferenceConstraint `{TimeZones} (preference : string)
    (weight : float) : SchedulingConstraint float :=
  let preference := lower preference in
  mkConstraint "TimePreferenceConstraint" weight (fun _ slot context =>
    if String.eqb preference "any" then 1%float
    else
      let hour := hour_of (ctx_timezone context) (start_time slot) in
      let prefers p := String.eqb preference p in
      let between a b := (a <=? hour) && (hour <? b) in
      if prefers "morning" && between 9 12 then 1%float
      else if prefers "afternoon" && between 12 17 then 1%float
      else if prefers "evening" && between 17 20 then 1%float
      else if prefers "morning" && between 8 9 then 0.8%float
      else if prefers "morning" && between 12 13 then 0.6%float
      else if prefers "afternoon" && between 11 12 then 0.8%float
      else if prefers "afternoon" && between 17 18 then 0.6%float
      else if prefers "evening" && between 16 17 then 0.8%float
      else if prefers "evening" && between 20 21 then 0.6%float
      else 0.3%float).

Definition DayAvoidanceConstraint `{TimeZones} (days_to_avoid : list Z)
    (weight : float) : SchedulingConstraint float :=
  mkConstraint "DayAvoidanceConstraint" weight (fun _ slot context =>
    let day_of_week := weekday_of (ctx_timezone context) (start_time slot) in
    if existsb (Z.eqb day_of_week) days_to_avoid then 0%float else 1%float).

(** [timedelta.days] and an [int] turned into a [float]. *)
Definition days (d : timedelta) : Z := d / 86400000000.
Definition float_of_int (n : Z) : float := PrimFloat.of_uint63 (Uint63.of_Z n).

(** [max(0.5, x)]: the second argument wins only when it is greater. *)
Definition max_half (x : float) : float :=
  if PrimFloat.ltb 0.5%float x then x else 0.5%float.

Definition DateRangeConstraint (earliest_date latest_date preferred_start_date
    preferred_end_date : option datetime) (weight : float)
    : SchedulingConstraint float :=
  mkConstraint "DateRangeConstraint" weight (fun _ slot _ =>
    let start_time := start_time slot in
    let before_earliest :=
      match earliest_date with Some d => start_time <? d | None => false end in
    let after_latest :=
      match latest_date with Some d => d <? start_time | None => false end in
    if before_earliest then 0%float
    else if after_latest then 0%float
    else
      match preferred_start_date, preferred_end_date with
      | Some ps, Some pe =>
          if (ps <=? start_time) && (start_time <=? pe) then 1%float
          else if start_time <? ps then
            max_half (1 - float_of_int (days (ps - start_time)%Z) * 0.1)%float
          else if pe <? start_time then
            max_half (1 - float_of_int (days (start_time - pe)%Z) * 0.1)%float
          else 1%float
      | _, _ => 1%float
      end).

(** [notice_hours < minimum_hours], taken exactly. *)
Definition MinimumNoticeConstraint (minimum_hours : Z) (weight : float)
    : SchedulingConstraint float :=
  mkConstraint "MinimumNoticeConstraint" weight (fun now slot _ =>
    if start_time slot - now <? minimum_hours * 3600000000
    then 0%float else 1%float).

(** A slot with its [score] and [constraint_scores]. *)
Record ScoredSlot (F : Type) : Type := mkScoredSlot {
  slot_of : Slot;
  score : F;
  constraint_scores : odict F
}.
Arguments mkScoredSlot {F} slot_of score constraint_scores.
Arguments slot_of {F} s.
Arguments score {F} s.
Arguments constraint_scores {F} s.

(** [sum(constraint.weight for constraint in constraints)]. *)
Definition total_weight `{Arith F} (constraints : list (SchedulingConstraint F)) : F :=
  fold_left add (map weight constraints) zero.

(** The loop over the constraints for one slot: the running [weighted_score]
    and the [constraint_scores] dict. *)
Definition accumulate_scores `{Arith F} (now : datetime)
    (constraints : list (SchedulingConstraint F)) (slot : Slot)
    (context : Context) : F * odict F :=
  fold_left (fun acc constraint =>
      let score := evaluate constraint now slot context in
      (add (fst acc) (mul score (weight constraint)),
       odict_set (class_name constraint) score (snd acc)))
    constraints (zero, []).

(** The body of the loop over the slots of [_score_slots]. *)
Definition score_slot `{Arith F} (now : datetime)
    (constraints : list (SchedulingConstraint F)) (context : Context)
    (slot : Slot) : ScoredSlot F :=
  let total_weight := total_weight constraints in
  let '(weighted_score, constraint_scores) :=
    accumulate_scores now constraints slot context in
  let normalized_score :=
    if lt zero total_weight then div weighted_score total_weight else one in
  mkScoredSlot slot normalized_score constraint_scores.

Definition _score_slots `{Arith F} (now : datetime) (slots : list Slot)
    (constraints : list (SchedulingConstraint F)) (context : Context)
    : list (ScoredSlot F) :=
  map (score_slot now constraints context) slots.

(** [sorted(xs, key=key, reverse=True)]: a stable sort into descending key
    order, by insertion; an element moves behind the elements of strictly
    greater key only. *)
Section Sorted.
Context {A K : Type} (key : A -> K) (ltb : K -> K -> bool).

Fixpoint insert_desc (x : A) (l : list A) : list A :=
  match l with
  | [] => [x]
  | y :: l' => if ltb (key x) (key y) then y :: insert_desc x l' else x :: y :: l'
  end.

Definition sorted_desc (l : list A) : list A := fold_right insert_desc [] l.
End Sorted.

(** [xs[:k]] for an [int] [k]: a negative [k] counts from the end. *)
Definition slice_to {A : Type} (xs : list A) (k : Z) : list A :=
  if 0 <=? k then firstn (Z.to_nat k) xs
  else firstn (length xs - Z.to_nat (- k)) xs.

(** ** scheduling_engine.py: the world the schedulers act on *)

(** The [event_details] dict of [schedule_interview]. *)
Record EventDetails : Type := mkEventDetails {
  title : string;
  location : string;
  description : string;
  event_start_time : datetime;
  event_end_time : datetime;
  event_timezone : string;
  attendees : list string
}.

(** A calendar event as the schedulers see it: a dict of which only the key
    [id] is ever read. *)
Record Event : Type := mkEvent { event_id : string }.

(** The arguments of [send_interview_confirmation]. *)
Record Confirmation : Type := mkConfirmation {
  conf_interview_id : string;
  conf_job_id : string;
  conf_candidate_id : string;
  conf_interviewer_ids : list string;
  conf_start_time : datetime;
  conf_end_time : datetime;
  conf_location : string;
  conf_interview_type : string;
  conf_additional_info : string
}.

(** Everything outside the process is a world [W]: the clock and the random
    generator, the calendars behind [calendar_service], and the mail behind
    [communication_service].  A method of a collaborator is a function of the
    world that returns its answer, or raises, and the world after the call. *)
Class System (W : Type) : Type := {
  now : W -> datetime;                      (* [datetime.now()] *)
  randint : W -> Z -> Z -> Z * W            (* [random.randint(a, b)] *)
}.

(** The method of [calendar_service] that [ConstraintBasedScheduler] calls. *)
Class CalendarAvailability (W : Type) : Type :=
  get_common_availability :
    W -> list string -> datetime -> datetime -> Z -> string ->
    result (list Slot) * W.

(** The methods of [calendar_service] that [InterviewScheduler] calls. *)
Class CalendarEvents (W : Type) : Type := {
  create_event : W -> string -> EventDetails -> result Event * W;
  delete_event : W -> string -> string -> result bool * W
}.

(** A [communication_service] object. *)
Record CommunicationService (W : Type) : Type := mkCommunicationService {
  send_interview_confirmation : W -> Confirmation -> result unit * W;
  send_cancellation_notification : W -> string -> string -> result unit * W
}.
Arguments send_interview_confirmation {W} c w a.
Arguments send_cancellation_notification {W} c w interview_id reason.

(** The calls made on the collaborators, in order: the observable behaviour of
    an operation. *)
Inductive Call : Type :=
| GetCommonAvailability (user_ids : list string) (start_time end_time : datetime)
    (duration_minutes : Z) (timezone : string)
| CreateEvent (user_id : string) (event_details : EventDetails)
| DeleteEvent (user_id event_id : string)
| SendInterviewConfirmation (confirmation : Confirmation)
| SendCancellationNotification (interview_id reason : string).

Record Env (W : Type) : Type := mkEnv {
  world : W;
  calls : list Call
}.
Arguments mkEnv {W} world calls.
Arguments world {W} e.
Arguments calls {W} e.

(** Computations that read and change the world and may raise. *)
Definition M (W A : Type) : Type := Env W -> result A * Env W.

#[global] Instance M_ret {W : Type} : MRet (M W) :=
  fun A a env => (Return a, env).

#[global] Instance M_bind {W : Type} : MBind (M W) :=
  fun A B k m env =>
    match m env with
    | (Return a, env') => k a env'
    | (Raise e, env') => (Raise e, env')
    end.

Definition raise {W A : Type} (e : exn) : M W A := fun env => (Raise e, env).

(** [try: body except Exception as e: handler]. *)
Definition try_except {W A : Type} (body : M W A) (handler : exn -> M W A)
    : M W A :=
  fun env =>
    match body env with
    | (Return a, env') => (Return a, env')
    | (Raise e, env') => handler e env'
    end.

(** A call on a collaborator, recorded in [calls]. *)
Definition invoke {W A : Type} (c : Call) (method : W -> result A * W) : M W A :=
  fun env =>
    let '(r, w) := method (world env) in
    (r, mkEnv w (calls env ++ [c])).

(** Reading the clock and drawing a random number. *)
Definition get_now {W : Type} `{System W} : M W datetime :=
  fun env => (Return (now (world env)), env).
Definition draw {W : Type} `{System W} (a b : Z) : M W Z :=
  fun env =>
    let '(n, w) := randint (world env) a b in
    (Return n, mkEnv w (calls env)).

(** Decimal rendering of an [int] inside an f-string, and
    [int(datetime.now().timestamp())]. *)
Definition string_of_Z (z : Z) : string := NilZero.string_of_int (Z.to_int z).
Definition timestamp (t : datetime) : Z := t ÷ 1000000.

(** ** scheduling_engine.py: ConstraintBasedScheduler *)

Module ConstraintBasedScheduler.

(** The scheduler object: its [default_constraints] attribute. *)
Record t : Type := mk {
  default_constraints : list (SchedulingConstraint float)
}.

Definition _create_default_constraints `{TimeZones}
    : list (SchedulingConstraint float) :=
  [BusinessHoursConstraint 9 17 [0; 1; 2; 3; 4] 1.0%float;
   MinimumNoticeConstraint 24 0.9%float].

(** [__init__]. *)
Definition init `{TimeZones} : t := mk _create_default_constraints.

(** [constraints] and [preferences] are optional: a missing or empty list adds
    nothing, a missing dict is [None]. *)
Definition _prepare_constraints `{TimeZones} (self : t)
    (constraints : list (SchedulingConstraint float))
    (preferences : option Preferences) : list (SchedulingConstraint float) :=
  let all_constraints := default_constraints self ++ constraints in
  match preferences with
  | None => all_constraints
  | Some preferences =>
      let all_constraints :=
        match preferred_time_of_day preferences with
        | Some preference =>
            all_constraints ++ [TimePreferenceConstraint preference 0.7%float]
        | None => all_constraints
        end in
      let days_to_avoid :=
        (if avoid_mondays preferences then [0] else [])
        ++ (if avoid_fridays preferences then [4] else [])
        ++ (if avoid_weekends preferences then [5; 6] else []) in
      let all_constraints :=
        match days_to_avoid with
        | [] => all_constraints
        | _ => all_constraints ++ [DayAvoidanceConstraint days_to_avoid 0.8%float]
        end in
      match preferred_start_date preferences, preferred_end_date preferences with
      | Some preferred_start, Some preferred_end =>
          all_constraints
          ++ [DateRangeConstraint None None (Some preferred_start)
                (Some preferred_end) 0.6%float]
      | _, _ => all_constraints
      end
  end.

(** Lines 388-392 of [find_available_slots]: score the common slots, sort them
    by score, descending, and keep the first [max_slots]. *)
Definition rank_slots (clock : datetime) (common_slots : list Slot)
    (all_constraints : list (SchedulingConstraint float)) (context : Context)
    (max_slots : Z) : list (ScoredSlot float) :=
  let scored_slots := _score_slots clock common_slots all_constraints context in
  slice_to (sorted_desc score PrimFloat.ltb scored_slots) max_slots.

Definition find_available_slots {W : Type} `{System W} `{CalendarAvailability W}
    `{TimeZones} (self : t) (participants : list string) (duration_minutes : Z)
    (date_range : datetime * datetime)
    (constraints : list (SchedulingConstraint float))
    (preferences : option Preferences) (timezone : string) (max_slots : Z)
    : M W (list (ScoredSlot float)) :=
  common_slots ←
    invoke (GetCommonAvailability participants (fst date_range) (snd date_range)
              duration_minutes timezone)
      (fun w => get_common_availability w participants (fst date_range)
                  (snd date_range) duration_minutes timezone);
  match common_slots with
  | [] => mret []
  | _ =>
      let all_constraints := _prepare_constraints self constraints preferences in
      let context :=
        mkContext timezone duration_minutes participants
          (match preferences with Some p => p | None => no_preferences end) in
      clock ← get_now;
      mret (rank_slots clock common_slots all_constraints context max_slots)
  end.

End ConstraintBasedScheduler.

(** ** scheduling_engine.py: InterviewScheduler *)

Module InterviewScheduler.

(** The scheduler object; [calendar_service] is the world's calendar. *)
Record t (W : Type) : Type := mk {
  communication_service : option (CommunicationService W);
  scheduler : ConstraintBasedScheduler.t
}.
Arguments mk {W} communication_service scheduler.
Arguments communication_service {W} _.
Arguments scheduler {W} _.

(** A ranked slot enriched with [job_id], [candidate_id], [interviewer_ids]
    and [slot_id]. *)
Record EnrichedSlot : Type := mkEnrichedSlot {
  ranked : ScoredSlot float;
  slot_job_id : string;
  slot_candidate_id : string;
  slot_interviewer_ids : list string;
  slot_id : string
}.

(** The interview dict.  [schedule_interview] sets every key but the two of a
    cancellation; the record [cancel_interview] returns has only [id],
    [job_id], [candidate_id], [interviewer_ids], [events], [status] and the
    two cancellation keys. *)
Record Interview : Type := mkInterview {
  id : string;
  job_id : string;
  candidate_id : string;
  interviewer_ids : list string;
  start_time_iso : option datetime;
  end_time_iso : option datetime;
  timezone : option string;
  interview_location : option string;
  interview_type : option string;
  additional_info : option string;
  status : string;
  created_at : option datetime;
  events : odict Event;
  participant_names : option (list string);
  cancellation_reason : option string;
  cancelled_at : option datetime
}.

Section Methods.
Context {W : Type} {system : System W} {availability : CalendarAvailability W}
  {calendar : CalendarEvents W} {zones : TimeZones}.

Definition _generate_slot_id : M W string :=
  clock ← get_now;
  random_part ← draw 1000 9999;
  mret ("slot_" +:+ string_of_Z (timestamp clock) +:+ "_" +:+ string_of_Z random_part).

Definition _generate_interview_id : M W string :=
  clock ← get_now;
  random_part ← draw 1000 9999;
  mret ("interview_" +:+ string_of_Z (timestamp clock) +:+ "_"
        +:+ string_of_Z random_part).

(** The enrichment loop of [find_available_slots]. *)
Fixpoint enrich_slots (job_id candidate_id : string)
    (interviewer_ids : list string) (available_slots : list (ScoredSlot float))
    : M W (list EnrichedSlot) :=
  match available_slots with
  | [] => mret []
  | slot :: rest =>
      slot_id ← _generate_slot_id;
      enriched ← enrich_slots job_id candidate_id interviewer_ids rest;
      mret (mkEnrichedSlot slot job_id candidate_id interviewer_ids slot_id
              :: enriched)
  end.

Definition find_available_slots (self : t W) (job_id candidate_id : string)
    (interviewer_ids : list string) (duration_minutes : Z)
    (date_range : datetime * datetime) (preferences : option Preferences)
    (timezone : string) (max_slots : Z) : M W (list EnrichedSlot) :=
  let participants :=
    interviewer_ids ++ (if String.eqb candidate_id "" then [] else [candidate_id]) in
  available_slots ←
    ConstraintBasedScheduler.find_available_slots (scheduler self) participants
      duration_minutes date_range [] preferences timezone max_slots;
  enrich_slots job_id candidate_id interviewer_ids available_slots.

(** The loop that creates an event for each interviewer; a failure is logged
    and leaves [events] as it is. *)
Fixpoint create_interviewer_events (interviewer_ids : list string)
    (event_details : EventDetails) (events : odict Event) : M W (odict Event) :=
  match interviewer_ids with
  | [] => mret events
  | interviewer_id :: rest =>
      events ←
        try_except
          (event ← invoke (CreateEvent interviewer_id event_details)
                     (fun w => create_event w interviewer_id event_details);
           mret (odict_set interviewer_id event events))
          (fun _ => mret events);
      create_interviewer_events rest event_details events
  end.

(** The line feed of the f-strings. *)
Definition nl : string := String (ascii_of_nat 10) EmptyString.

Definition schedule_interview (self : t W) (job_id candidate_id : string)
    (interviewer_ids : list string) (start_time end_time : datetime)
    (location interview_type additional_info timezone : string)
    : M W Interview :=
  interview_id ← _generate_interview_id;
  let candidate_name := "Candidate " +:+ candidate_id in
  let candidate_email := candidate_id +:+ "@example.com" in
  let interviewer_names := map (fun i => "Interviewer " +:+ i) interviewer_ids in
  let interviewer_emails := map (fun i => i +:+ "@example.com") interviewer_ids in
  let all_attendees := interviewer_emails ++ [candidate_email] in
  let event_details :=
    mkEventDetails
      ("Interview: " +:+ interview_type +:+ " for Job " +:+ job_id)
      location
      ("Interview with " +:+ candidate_name +:+ nl +:+ nl +:+ "Type: "
       +:+ interview_type +:+ nl +:+ nl +:+ additional_info)
      start_time end_time timezone all_attendees in
  events ← create_interviewer_events interviewer_ids event_details [];
  events ←
    try_except
      (event ← invoke (CreateEvent candidate_id event_details)
                 (fun w => create_event w candidate_id event_details);
       mret (odict_set candidate_id event events))
      (fun _ => mret events);
  match communication_service self with
  | Some service =>
      let confirmation :=
        mkConfirmation interview_id job_id candidate_id interviewer_ids
          start_time end_time location interview_type additional_info in
      try_except
        (invoke (SendInterviewConfirmation confirmation)
           (fun w => send_interview_confirmation service w confirmation))
        (fun _ => mret tt)
  | None => mret tt
  end;;
  created_at ← get_now;
  mret (mkInterview interview_id job_id candidate_id interviewer_ids
          (Some start_time) (Some end_time) (Some timezone) (Some location)
          (Some interview_type) (Some additional_info) "scheduled"
          (Some created_at) events (Some (candidate_name :: interviewer_names))
          None None).

(** The interview [cancel_interview] works on: not the stored one, which it
    never retrieves, but this record of the source. *)
Definition simulated_events : odict Event :=
  [("candidate_67890", mkEvent "event_1");
   ("interviewer_11111", mkEvent "event_2");
   ("interviewer_22222", mkEvent "event_3")].

(** The loop that deletes the event of each participant of [events]. *)
Fixpoint delete_events (events : odict Event) : M W unit :=
  match events with
  | [] => mret tt
  | (participant_id, event_data) :: rest =>
      try_except
        (invoke (DeleteEvent participant_id (event_id event_data))
           (fun w => delete_event w participant_id (event_id event_data));;
         mret tt)
        (fun _ => mret tt);;
      delete_events rest
  end.

Definition cancel_interview (self : t W) (interview_id reason : string)
    : M W Interview :=
  delete_events simulated_events;;
  match communication_service self with
  | Some service =>
      try_except
        (invoke (SendCancellationNotification interview_id reason)
           (fun w => send_cancellation_notification service w interview_id reason))
        (fun _ => mret tt)
  | None => mret tt
  end;;
  cancelled_at ← get_now;
  mret (mkInterview interview_id "job_12345" "candidate_67890"
          ["interviewer_11111"; "interviewer_22222"]
          None None None None None None "cancelled" None simulated_events None
          (Some reason) (Some cancelled_at)).

End Methods.
End InterviewScheduler.

(** ** scheduling_engine.py: CandidateSchedulingService *)

Module CandidateSchedulingService.
Import InterviewScheduler.

(** The dict stored under a token. *)
Record TokenData : Type := mkTokenData {
  token_candidate_id : string;
  token_job_id : string;
  expiration : datetime;
  token_created_at : datetime
}.

(** The service object: the token store and the slots stored per token. *)
Record t (W : Type) : Type := mk {
  interview_scheduler : InterviewScheduler.t W;
  tokens : gmap string TokenData;
  available_slots : gmap string (list EnrichedSlot)
}.
Arguments mk {W} interview_scheduler tokens available_slots.
Arguments interview_scheduler {W} _.
Arguments tokens {W} _.
Arguments available_slots {W} _.

(** A method returns its answer, or raises, with the service object and the
    world as the call leaves them. *)
Definition outcome (W A : Type) : Type := result A * t W * Env W.

Section Methods.
Context {W : Type} {system : System W} {availability : CalendarAvailability W}
  {calendar : CalendarEvents W} {zones : TimeZones}.

Definition _generate_token : M W string :=
  clock ← get_now;
  random_part ← draw 100000 999999;
  mret ("token_" +:+ string_of_Z (timestamp clock) +:+ "_" +:+ string_of_Z random_part).

Definition generate_scheduling_token (self : t W) (candidate_id job_id : string)
    (expiration : datetime) (env : Env W) : outcome W string :=
  match (token ← _generate_token;
         created_at ← get_now;
         mret (token, mkTokenData candidate_id job_id expiration created_at)) env with
  | (Return (token, token_data), env') =>
      (Return token,
       mk (interview_scheduler self) (<[token := token_data]> (tokens self))
          (available_slots self),
       env')
  | (Raise e, env') => (Raise e, self, env')
  end.

Definition validate_token (self : t W) (token : string) : M W TokenData :=
  match tokens self !! token with
  | None => raise (ValueError "Invalid token")
  | Some token_data =>
      clock ← get_now;
      if expiration token_data <? clock
      then raise (ValueError "Token expired")
      else mret token_data
  end.

(** [timedelta(days=n)]. *)
Definition days_delta (n : Z) : timedelta := n * 86400000000.

Definition get_available_slots (self : t W) (token : string) (env : Env W)
    : outcome W (list EnrichedSlot) :=
  match (token_data ← validate_token self token;
         let job_id := token_job_id token_data in
         let candidate_id := token_candidate_id token_data in
         let interviewer_ids := ["interviewer_11111"; "interviewer_22222"] in
         clock ← get_now;
         let start_date := clock + days_delta 1 in
         let end_date := clock + days_delta 10 in
         find_available_slots (interview_scheduler self) job_id candidate_id
           interviewer_ids 60 (start_date, end_date) None "UTC" 10) env with
  | (Return slots, env') =>
      (Return slots,
       mk (interview_scheduler self) (tokens self)
          (<[token := slots]> (available_slots self)),
       env')
  | (Raise e, env') => (Raise e, self, env')
  end.

(** The search for [slot_id] among the slots stored for the token. *)
Definition find_slot (slots : list EnrichedSlot) (id : string)
    : option EnrichedSlot :=
  find (fun slot => String.eqb (slot_id slot) id) slots.

Definition confirm_slot (self : t W) (token slot_id : string) (env : Env W)
    : outcome W Interview :=
  match (token_data ← validate_token self token;
         let job_id := token_job_id token_data in
         let candidate_id := token_candidate_id token_data in
         match available_slots self !! token with
         | None => raise (ValueError "No available slots for this token")
         | Some slots =>
             match find_slot slots slot_id with
             | None => raise (ValueError "Invalid slot ID")
             | Some selected_slot =>
                 let start_time := start_time (slot_of (ranked selected_slot)) in
                 let end_time := end_time (slot_of (ranked selected_slot)) in
                 schedule_interview (interview_scheduler self) job_id candidate_id
                   (slot_interviewer_ids selected_slot) start_time end_time
                   "Conference Room A" "Technical Interview"
                   "Please prepare to discuss your experience with Python and React."
                   "UTC"
             end
         end) env with
  | (Return interview, env') =>
      (Return interview,
       mk (interview_scheduler self) (delete token (tokens self))
          (delete token (available_slots self)),
       env')
  | (Raise e, env') => (Raise e, self, env')
  end.

End Methods.
End CandidateSchedulingService.

(** ** A one-day scenario

    Monday 2024-01-01, UTC.  Participant A is busy 10:00-11:00, B is busy
    14:00-15:00, D is busy the whole day, E's free/busy request fails, and C
    has no calendar provider. *)

(** [h]:00 UTC on that day. *)
Definition at_hour (h : Z) : datetime := 1704067200000000 + minutes (60 * h).

(** [h]:00 plus [m] minutes. *)
Definition at_time (h m : Z) : datetime := at_hour h + minutes m.

Definition scenario_google : GoogleCalendarIntegration.t :=
  GoogleCalendarIntegration.mk (fun user_id _ _ _ =>
    if String.eqb user_id "A" then Some [(at_hour 10, at_hour 11)]
    else if String.eqb user_id "B" then Some [(at_hour 14, at_hour 15)]
    else if String.eqb user_id "D" then Some [(at_hour 0, at_hour 24)]
    else None).

Definition scenario_service : CalendarService.t :=
  CalendarService.mk
    (<["google" := scenario_google]> ∅)
    (<["A" := "google"]> (<["B" := "google"]> (<["D" := "google"]>
       (<["E" := "google"]> ∅)))).


(** The 30-minute windows of [9, 17) outside [10, 11) and [14, 15). *)
Definition scenario_half_hours : list Slot :=
  flat_map (fun h => [mkSlot (at_time h 0) (at_time h 30) 30;
                      mkSlot (at_time h 30) (at_time (h + 1) 0) 30])
    [9; 11; 12; 13; 15; 16].

(** ** The mock calendar of the module's example

    [MockCalendarService] of [scheduling_engine.py]: two 60-minute slots
    relative to the clock, events with a random id, and no [delete_event]
    method.  Its world is a clock and the state of the random generator. *)

Record MockWorld : Type := mkMockWorld {
  mock_clock : datetime;
  mock_seed : Z
}.

#[global] Instance mock_system : System MockWorld := {|
  now := mock_clock;
  randint := fun w a b =>
    (a + mock_seed w mod (b - a + 1), mkMockWorld (mock_clock w) (mock_seed w + 1))
|}.

(** [timedelta(days=d, hours=h)]. *)
Definition days_hours (d h : Z) : timedelta := d * 86400000000 + h * 3600000000.

#[global] Instance mock_availability : CalendarAvailability MockWorld :=
  fun w _ _ _ _ _ =>
    (Return [mkSlot (mock_clock w + days_hours 2 10) (mock_clock w + days_hours 2 11) 60;
             mkSlot (mock_clock w + days_hours 3 14) (mock_clock w + days_hours 3 15) 60],
     w).

#[global] Instance mock_events : CalendarEvents MockWorld := {|
  create_event := fun w _ _ =>
    let '(n, w') := randint w 1000 9999 in
    (Return (mkEvent ("event_" +:+ string_of_Z n)), w');
  delete_event := fun w _ _ =>
    (Raise (AttributeError "'MockCalendarService' object has no attribute 'delete_event'"), w)
|}.

(** Every zone at offset zero: all times of the examples are UTC. *)
Definition utc_zones : TimeZones := fun _ _ => 0.

(** The service of the example, without a communication service, and the
    world on Monday 2024-01-01 at 00:00 UTC. *)
Definition mock_service : CandidateSchedulingService.t MockWorld :=
  CandidateSchedulingService.mk
    (InterviewScheduler.mk None (@ConstraintBasedScheduler.init utc_zones)) ∅ ∅.

Definition mock_env : Env MockWorld := mkEnv (mkMockWorld (at_hour 0) 0) [].

(** The parts of an outcome. *)
Definition answer {W A : Type} (o : CandidateSchedulingService.outcome W A)
    : result A := fst (fst o).
Definition service_after {W A : Type} (o : CandidateSchedulingService.outcome W A)
    : CandidateSchedulingService.t W := snd (fst o).
Definition env_after {W A : Type} (o : CandidateSchedulingService.outcome W A)
    : Env W := snd o.

(** The states of a self-scheduling session on the mock: a token is issued,
    the slots are listed (twice), the first slot is confirmed, and confirmed
    again. *)
Definition mock_token : string := "token_1704067200_100000".
Definition mock_slot_id : string := "slot_1704067200_1001".

Definition mock_issued : CandidateSchedulingService.outcome MockWorld string :=
  CandidateSchedulingService.generate_scheduling_token mock_service
    "candidate_67890" "job_12345" (at_hour 100) mock_env.

Definition mock_listed
    : CandidateSchedulingService.outcome MockWorld
        (list InterviewScheduler.EnrichedSlot) :=
  let '(_, self, env) := mock_issued in
  CandidateSchedulingService.get_available_slots (zones := utc_zones) self
    mock_token env.





(** The list the first listing returns, its first slot, the data stored under
    the token, and a world in which the token has expired. *)
Definition mock_first_list : list InterviewScheduler.EnrichedSlot :=
  Eval vm_compute in
    match answer mock_listed with
    | Return slots => slots
    | Raise _ => []
    end.

Definition mock_first_slot : InterviewScheduler.EnrichedSlot :=
  Eval vm_compute in
    match mock_first_list with
    | slot :: _ => slot
    | [] =>
        InterviewScheduler.mkEnrichedSlot (mkScoredSlot (mkSlot 0 0 0) 0%float [])
          "" "" [] ""
    end.

Definition mock_token_data : CandidateSchedulingService.TokenData :=
  CandidateSchedulingService.mkTokenData "candidate_67890" "job_12345"
    (at_hour 100) (at_hour 0).

Definition mock_env_expired : Env MockWorld := mkEnv (mkMockWorld (at_hour 101) 7) [].

(** An interview scheduled and then cancelled on the mock: alice interviews
    bob. *)
Definition mock_scheduler : InterviewScheduler.t MockWorld :=
  InterviewScheduler.mk None (@ConstraintBasedScheduler.init utc_zones).

Definition mock_scheduled : result InterviewScheduler.Interview * Env MockWorld :=
  InterviewScheduler.schedule_interview mock_scheduler "job_1" "bob" ["alice"]
    (at_hour 58) (at_hour 59) "Room 1" "Technical Interview" "" "UTC" mock_env.

Definition mock_cancelled : result InterviewScheduler.Interview * Env MockWorld :=
  match mock_scheduled with
  | (Return interview, env) =>
      InterviewScheduler.cancel_interview mock_scheduler
        (InterviewScheduler.id interview) "no longer needed" env
  | (Raise e, env) => (Raise e, env)
  end.

(** ** Constraint lists of the examples *)

(** The default constraints followed by a morning preference, as
    [_prepare_constraints] builds them, and the same constraints with the last
    two exchanged. *)
Definition morning_constraints : list (SchedulingConstraint float) :=
  [@BusinessHoursConstraint utc_zones 9 17 [0; 1; 2; 3; 4] 1.0%float;
   MinimumNoticeConstraint 24 0.9%float;
   @TimePreferenceConstraint utc_zones "morning" 0.7%float].

Definition morning_constraints_reordered : list (SchedulingConstraint float) :=
  [@BusinessHoursConstraint utc_zones 9 17 [0; 1; 2; 3; 4] 1.0%float;
   @TimePreferenceConstraint utc_zones "morning" 0.7%float;
   MinimumNoticeConstraint 24 0.9%float].

(** Constraints with the same weights and scores in exact arithmetic. *)
Definition exact_constraints : list (SchedulingConstraint Q) :=
  [mkConstraint "BusinessHoursConstraint" 1%Q (fun _ _ _ => 1%Q);
   mkConstraint "MinimumNoticeConstraint" (9 # 10)%Q (fun _ _ _ => 1%Q);
   mkConstraint "TimePreferenceConstraint" (7 # 10)%Q (fun _ _ _ => (3 # 10)%Q)].

Definition exact_constraints_reordered : list (SchedulingConstraint Q) :=
  [mkConstraint "BusinessHoursConstraint" 1%Q (fun _ _ _ => 1%Q);
   mkConstraint "TimePreferenceConstraint" (7 # 10)%Q (fun _ _ _ => (3 # 10)%Q);
   mkConstraint "MinimumNoticeConstraint" (9 # 10)%Q (fun _ _ _ => 1%Q)].

Definition utc_context : Context := mkContext "UTC" 60 ["A"; "B"] no_preferences.

(** The Monday 14:00-15:00 slot, scored two days ahead. *)
Definition afternoon_slot : Slot := mkSlot (at_hour 14) (at_hour 15) 60.
Definition two_days_before : datetime := at_hour (-34).

(** The weighted sum of the scores of a slot, accumulated in list order. *)
Definition weighted_sum `{Arith F} (clock : datetime)
    (constraints : list (SchedulingConstraint F)) (slot : Slot)
    (context : Context) : F :=
  fold_left add
    (map (fun c => mul (evaluate c clock slot context) (weight c)) constraints)
    zero.

(** ** Predicates of the statements *)

(** [r] lies inside [outer]. *)
Definition within (r outer : CalendarService.range) : Prop :=
  fst outer <= fst r /\ snd r <= snd outer.

(** The half-open windows [[s, e)] and [[fst b, snd b)] overlap: the test of
    [get_availability]. *)
Definition overlaps (s e : datetime) (b : busy_range) : Prop :=
  s < snd b /\ fst b < e.

(** A list of ranges in which every range is non-empty and ends before the
    next one starts. *)
Definition proper (r : CalendarService.range) : Prop := fst r < snd r.
Definition precedes (r1 r2 : CalendarService.range) : Prop := snd r1 <= fst r2.
Definition chain (l : list CalendarService.range) : Prop :=
  Forall proper l /\ StronglySorted precedes l.

(** The [k]-th window of the 30-minute grid that starts at [s]. *)
Definition grid_window (s : datetime) (k : Z) : CalendarService.range :=
  (s + k * GoogleCalendarIntegration.slot_duration,
   s + (k + 1) * GoogleCalendarIntegration.slot_duration).
Definition on_grid (s : datetime) (r : CalendarService.range) : Prop :=
  exists k : Z, 0 <= k /\ r = grid_window s k.


(** The participants whose calendars a search consults. *)
Definition participants_of (candidate_id : string) (interviewer_ids : list string)
    : list string :=
  interviewer_ids ++ (if String.eqb candidate_id "" then [] else [candidate_id]).

(** [a] may stand before [b] in a ranking by [key]: its key is not smaller,
    and when the keys tie, [a] comes first in the order [ord] of the input. *)
Definition ranked_before {A K : Type} (key : A -> K) (ltb : K -> K -> bool)
    (ord : A -> A -> Prop) (a b : A) : Prop :=
  ltb (key a) (key b) = false /\ (ltb (key b) (key a) = false -> ord a b).

(** The fields [InterviewScheduler.find_available_slots] adds to a ranked
    slot, next to its id. *)
Definition tagged (job_id candidate_id : string) (interviewer_ids : list string)
    (x : InterviewScheduler.EnrichedSlot) : Prop :=
  InterviewScheduler.slot_job_id x = job_id /\
  InterviewScheduler.slot_candidate_id x = candidate_id /\
  InterviewScheduler.slot_interviewer_ids x = interviewer_ids.

(** ** calendar_integration.py: setting up a CalendarService *)

Module CalendarServiceSetup.

(** [__init__]: no integration, no provider. *)
Definition init : CalendarService.t := CalendarService.mk ∅ ∅.

(** [register_integration]: the provider name is stored in lower case. *)
Definition register_integration (self : CalendarService.t) (provider : string)
    (integration : GoogleCalendarIntegration.t) : CalendarService.t :=
  CalendarService.mk
    (<[lower provider := integration]> (CalendarService.integrations self))
    (CalendarService.user_providers self).

(** [set_user_provider]: likewise. *)
Definition set_user_provider (self : CalendarService.t) (user_id provider : string)
    : CalendarService.t :=
  CalendarService.mk (CalendarService.integrations self)
    (<[user_id := lower provider]> (CalendarService.user_providers self)).

End CalendarServiceSetup.

(** A [CalendarService] as the [calendar_service] of the schedulers: the common
    availability is what the service computes, whatever the rest of the world
    is. *)
Definition calendar_of {W : Type} (service : CalendarService.t)
    : CalendarAvailability W :=
  fun w user_ids start_time end_time duration_minutes timezone =>
    (CalendarService.get_common_availability service user_ids start_time end_time
       duration_minutes timezone,
     w).

(** ** calendar_integration.py: MicrosoftCalendarIntegration *)

Module MicrosoftCalendarIntegration.

(** The [workingHours] of a schedule item when it is a dict that is not empty:
    its [daysOfWeek] (no day when the key is missing) and its [startTime] and
    [endTime] strings when present. *)
Record WorkingHours : Type := mkWorkingHours {
  daysOfWeek : list string;
  startTime : option string;
  endTime : option string
}.

Record ScheduleItem : Type := mkScheduleItem {
  availabilityView : string;
  workingHours : option WorkingHours
}.

(** The part of a Microsoft integration the availability query depends on:
    what lines 650-681 of [get_availability] produce, the schedule items of
    the response, or [None] when any step there raises (no token, an unknown
    timezone, a failed request). *)
Record t : Type := mk {
  getSchedule : string -> datetime -> datetime -> string -> option (list ScheduleItem)
}.

(** [datetime.strptime(s, "%H:%M:%S").time()]: the time of day, in
    microseconds since midnight, or [None] when [strptime] raises. *)
Class TimeParser : Type := strptime : string -> option Z.

(** [slot_duration = timedelta(minutes=30)]. *)
Definition slot_duration : timedelta := minutes 30.

(** [astimezone(tz).time()] and the time of day [h]:00:00. *)
Definition time_of_day `{TimeZones} (timezone : string) (t : datetime) : Z :=
  (t + utcoffset timezone t) mod 86400000000.
Definition o_clock (h : Z) : Z := h * 3600000000.

(** The working days, numbered from Sunday, and the start and the end of the
    working hours: lines 740-761.  The literal "09:00:00" and "17:00:00"
    always parse; a time of the response may not. *)
Definition parse_working_hours `{TimeParser} (working_hours : option WorkingHours)
    : option ((Z -> bool) * Z * Z) :=
  match working_hours with
  | None =>
      Some (fun d : Z =>
              if d =? 0 then false else if d =? 1 then true else if d =? 2 then true
              else if d =? 3 then true else if d =? 4 then true
              else if d =? 5 then true else false,
            o_clock 9, o_clock 17)
  | Some working_hours =>
      let listed name := existsb (String.eqb name) (daysOfWeek working_hours) in
      let days d :=
        if d =? 0 then listed "sunday" else if d =? 1 then listed "monday"
        else if d =? 2 then listed "tuesday" else if d =? 3 then listed "wednesday"
        else if d =? 4 then listed "thursday" else if d =? 5 then listed "friday"
        else if d =? 6 then listed "saturday" else false in
      match match startTime working_hours with
            | Some start_time_str => strptime start_time_str
            | None => Some (o_clock 9)
            end with
      | None => None
      | Some start_time =>
          match match endTime working_hours with
                | Some end_time_str => strptime end_time_str
                | None => Some (o_clock 17)
                end with
          | None => None
          | Some end_time => Some (days, start_time, end_time)
          end
      end
  end.

(** [_is_within_working_hours]; [None] when it raises. *)
Definition _is_within_working_hours `{TimeZones} `{TimeParser} (time : datetime)
    (working_hours : option WorkingHours) (timezone : string) : option bool :=
  match parse_working_hours working_hours with
  | None => None
  | Some (days, start_time, end_time) =>
      let day_of_week := weekday_of timezone time in
      let day_of_week := if day_of_week =? 6 then 0 else day_of_week + 1 in
      let is_working_day := days day_of_week in
      let time_of_day := time_of_day timezone time in
      let is_working_time :=
        (start_time <=? time_of_day) && (time_of_day <=? end_time) in
      Some (is_working_day && is_working_time)
  end.

(** The loop over the characters of [availabilityView], with its [break];
    [None] when [_is_within_working_hours] raises. *)
Fixpoint availability_loop `{TimeZones} `{TimeParser} (availability_view : string)
    (current_time end_time : datetime) (working_hours : option WorkingHours)
    (timezone : string) : option (list Slot) :=
  match availability_view with
  | EmptyString => Some []
  | String status rest =>
      match (if Ascii.eqb status "0"%char
             then
               match _is_within_working_hours current_time working_hours timezone with
               | None => None
               | Some true =>
                   Some [mkSlot current_time (current_time + slot_duration) 30]
               | Some false => Some []
               end
             else Some []) with
      | None => None
      | Some found =>
          let current_time := current_time + slot_duration in
          if end_time <=? current_time then Some found
          else
            match availability_loop rest current_time end_time working_hours
                    timezone with
            | None => None
            | Some more => Some (found ++ more)
            end
      end
  end.

(** [get_availability]: an exception anywhere is logged and gives []. *)
Definition get_availability `{TimeZones} `{TimeParser} (self : t) (user_id : string)
    (start_time end_time : datetime) (timezone : string) : list Slot :=
  match getSchedule self user_id start_time end_time timezone with
  | None => []
  | Some [] => []
  | Some (item :: _) =>
      match availability_loop (availabilityView item) start_time end_time
              (workingHours item) timezone with
      | Some available_slots => available_slots
      | None => []
      end
  end.

End MicrosoftCalendarIntegration.



(** The names of the days, from Monday, as [weekday()] numbers them; the
    working days and the first and last instant of the working hours that a
    [workingHours] stands for. *)
Definition day_name (weekday : Z) : string :=
  nth (Z.to_nat weekday)
    ["monday"; "tuesday"; "wednesday"; "thursday"; "friday"; "saturday"; "sunday"]
    "".

Definition working_days (working_hours : option MicrosoftCalendarIntegration.WorkingHours)
    : list string :=
  match working_hours with
  | None => ["monday"; "tuesday"; "wednesday"; "thursday"; "friday"]
  | Some wh => MicrosoftCalendarIntegration.daysOfWeek wh
  end.

Definition working_from `{MicrosoftCalendarIntegration.TimeParser}
    (working_hours : option MicrosoftCalendarIntegration.WorkingHours) : option Z :=
  match working_hours with
  | Some (MicrosoftCalendarIntegration.mkWorkingHours _ (Some t) _) =>
      MicrosoftCalendarIntegration.strptime t
  | _ => Some (MicrosoftCalendarIntegration.o_clock 9)
  end.

Definition working_until `{MicrosoftCalendarIntegration.TimeParser}
    (working_hours : option MicrosoftCalendarIntegration.WorkingHours) : option Z :=
  match working_hours with
  | Some (MicrosoftCalendarIntegration.mkWorkingHours _ _ (Some t)) =>
      MicrosoftCalendarIntegration.strptime t
  | _ => Some (MicrosoftCalendarIntegration.o_clock 17)
  end.

(** * Properties *)

(** ** The free slots of one participant *)

Section GoogleAvailability.
Import GoogleCalendarIntegration.

Lemma slot_duration_pos : 0 < slot_duration.
Proof. reflexivity. Qed.

(** A slot is available exactly when no busy period meets it. *)
Lemma is_available_true (busy_ranges : list busy_range) (c e : datetime) :
  is_available busy_ranges c e = true <->
  Forall (fun b => ~ (c < snd b /\ fst b < e)) busy_ranges.
Proof.
  unfold is_available. rewrite negb_true_iff. split.
  - intros H. apply List.Forall_forall. intros b Hb [H1 H2].
    assert (existsb (fun b => (c <? snd b) && (fst b <? e)) busy_ranges = true) as Hex.
    { apply existsb_exists. exists b. split; [exact Hb|].
      apply andb_true_iff. split; apply Z.ltb_lt; assumption. }
    congruence.
  - intros H.
    destruct (existsb (fun b => (c <? snd b) && (fst b <? e)) busy_ranges) eqn:Hex;
      [|reflexivity].
    apply existsb_exists in Hex. destruct Hex as [b [Hb Hov]].
    rewrite List.Forall_forall in H. specialize (H b Hb).
    apply andb_true_iff in Hov. destruct Hov as [H1 H2].
    apply Z.ltb_lt in H1. apply Z.ltb_lt in H2. tauto.
Qed.

(** Every slot the loop emits is the [k]-th window of the 30-minute grid that
    starts at [current_time], ends within the range and is available. *)
Lemma availability_loop_sound (fuel : nat) (busy_ranges : list busy_range)
    (e c : datetime) (s : Slot) :
  In s (availability_loop fuel busy_ranges e c) ->
  exists k : Z,
    0 <= k < Z.of_nat fuel /\
    s = mkSlot (c + k * slot_duration) (c + (k + 1) * slot_duration) 30 /\
    c + (k + 1) * slot_duration <= e /\
    is_available busy_ranges (c + k * slot_duration)
      (c + (k + 1) * slot_duration) = true.
Proof.
  revert c. induction fuel as [|fuel IH]; intros c Hin; [destruct Hin|].
  cbn [availability_loop] in Hin.
  destruct (c + slot_duration <=? e) eqn:Hle; [|destruct Hin].
  apply Z.leb_le in Hle.
  assert (In s (availability_loop fuel busy_ranges e (c + slot_duration)) ->
          exists k : Z,
            0 <= k < Z.of_nat (S fuel) /\
            s = mkSlot (c + k * slot_duration) (c + (k + 1) * slot_duration) 30 /\
            c + (k + 1) * slot_duration <= e /\
            is_available busy_ranges (c + k * slot_duration)
              (c + (k + 1) * slot_duration) = true) as Hrest.
  { intros Hr. destruct (IH _ Hr) as [k [Hk [Hs [Hend Hav]]]].
    exists (k + 1).
    replace (c + (k + 1) * slot_duration) with (c + slot_duration + k * slot_duration) by lia.
    replace (c + (k + 1 + 1) * slot_duration)
      with (c + slot_duration + (k + 1) * slot_duration) by lia.
    repeat split; try assumption; lia. }
  destruct (is_available busy_ranges c (c + slot_duration)) eqn:Hav.
  - destruct Hin as [Hs | Hr]; [|exact (Hrest Hr)].
    exists 0. replace (c + 0 * slot_duration) with c by lia.
    replace (c + (0 + 1) * slot_duration) with (c + slot_duration) by lia.
    repeat split; try assumption; try lia. symmetry. exact Hs.
  - exact (Hrest Hin).
Qed.


(** The loop stops by its own test: fuel beyond [iterations] changes
    nothing, so the bound of the model never cuts the loop short. *)
Lemma availability_loop_fuel (fuel : nat) (busy_ranges : list busy_range)
    (e c : datetime) :
  (iterations c e <= fuel)%nat ->
  availability_loop fuel busy_ranges e c =
  availability_loop (iterations c e) busy_ranges e c.
Proof.
  pose proof slot_duration_pos as Hpos.
  revert c. induction fuel as [|fuel IH]; intros c Hfuel.
  - replace (iterations c e) with 0%nat by lia. reflexivity.
  - cbn [availability_loop].
    destruct (c + slot_duration <=? e) eqn:Hle.
    + apply Z.leb_le in Hle.
      assert (iterations c e = S (iterations (c + slot_duration) e)) as Hit.
      { unfold iterations.
        replace (e - c) with (1 * slot_duration + (e - (c + slot_duration))) by lia.
        rewrite Z.div_add_l by lia.
        rewrite Z2Nat.inj_add; [reflexivity | lia |].
        apply Z.div_pos; lia. }
      rewrite Hit. cbn [availability_loop].
      apply Z.leb_le in Hle. rewrite Hle.
      rewrite (IH (c + slot_duration)) by lia. reflexivity.
    + apply Z.leb_gt in Hle.
      assert (iterations c e = 0%nat) as Hit.
      { unfold iterations.
        destruct (Z_lt_le_dec (e - c) 0) as [Hneg | Hnn].
        - assert ((e - c) / slot_duration < 0) by (apply Z.div_lt_upper_bound; lia).
          lia.
        - rewrite Z.div_small by lia. reflexivity. }
      rewrite Hit. reflexivity.
Qed.


End GoogleAvailability.

(** ** The intersection across participants *)

Section CommonSlots.
Import CalendarService.

Lemma intersect_ranges_sound (potential_common user_slots : list range)
    (d : Z) (r : range) :
  In r (intersect_ranges potential_common user_slots d) ->
  exists c s, In c potential_common /\ In s user_slots /\
    within r c /\ within r s /\ proper r /\ minutes d <= snd r - fst r.
Proof.
  unfold intersect_ranges. intros Hin.
  apply in_flat_map in Hin. destruct Hin as [c [Hc Hin]].
  apply in_flat_map in Hin. destruct Hin as [s [Hs Hin]].
  cbv zeta in Hin.
  destruct ((Z.max (fst c) (fst s) <? Z.min (snd c) (snd s))
            && (minutes d <=? Z.min (snd c) (snd s) - Z.max (fst c) (fst s)))
    eqn:Htest; [|destruct Hin].
  destruct Hin as [<- | []].
  apply andb_true_iff in Htest. destruct Htest as [Hlt Hdur].
  apply Z.ltb_lt in Hlt. apply Z.leb_le in Hdur.
  exists c, s. unfold within, proper. cbn [fst snd].
  repeat split; try assumption;
    auto using Z.le_max_l, Z.le_max_r, Z.le_min_l, Z.le_min_r.
Qed.

Lemma within_trans (a b c : range) : within a b -> within b c -> within a c.
Proof. unfold within. lia. Qed.

Lemma within_refl (a : range) : within a a.
Proof. unfold within. lia. Qed.

(** What survives the fold over the other users lies inside a range of the
    first user and inside a range of every other user. *)
Lemma intersect_users_sound (others : list (list range)) :
  forall (potential_common result : list range) (d : Z) (r : range),
  intersect_users potential_common others d = Some result ->
  In r result ->
  (exists c, In c potential_common /\ within r c) /\
  Forall (fun user_slots => exists s, In s user_slots /\ within r s) others.
Proof.
  induction others as [|user_slots others IH];
    intros potential_common result d r Hres Hin; cbn [intersect_users] in Hres.
  - injection Hres as <-. split; [|constructor].
    exists r. split; [assumption | apply within_refl].
  - destruct (intersect_ranges potential_common user_slots d) as [|r0 new_common]
      eqn:Hnew; [discriminate|].
    destruct (IH _ _ _ _ Hres Hin) as [[c' [Hc' Hw]] Hall].
    rewrite <- Hnew in Hc'.
    destruct (intersect_ranges_sound _ _ _ _ Hc')
      as [c [s [Hc [Hs [Hwc [Hws _]]]]]].
    split.
    + exists c. split; [assumption | eapply within_trans; eassumption].
    + constructor; [|assumption].
      exists s. split; [assumption | eapply within_trans; eassumption].
Qed.

Lemma to_common_slots_sound (ranges : list range) (d : Z) (slot : Slot) :
  In slot (to_common_slots ranges d) ->
  In (slot_range slot) ranges /\
  minutes d <= end_time slot - start_time slot.
Proof.
  unfold to_common_slots. intros Hin.
  apply in_flat_map in Hin. destruct Hin as [[s e] [Hr Hin]].
  cbn [fst snd] in Hin.
  destruct (minutes d <=? e - s) eqn:Hdur; [|destruct Hin].
  destruct Hin as [<- | []]. apply Z.leb_le in Hdur.
  unfold slot_range. cbn. split; assumption.
Qed.

(** Every common slot is long enough and lies inside a slot of every user of
    [all_availability]. *)
Lemma _find_common_slots_sound (all_availability : odict (list Slot))
    (d : Z) (timezone : string) (slot : Slot) :
  In slot (_find_common_slots all_availability d timezone) ->
  minutes d <= end_time slot - start_time slot /\
  Forall (fun slots => exists s, In s slots /\
                         within (slot_range slot) (slot_range s))
    (odict_values all_availability).
Proof.
  unfold _find_common_slots. intros Hin.
  destruct (odict_values all_availability) as [|first_user others];
    [destruct Hin|].
  destruct (intersect_users (map slot_range first_user)
              (map (map slot_range) others) d) as [potential_common|] eqn:Hfold;
    [|destruct Hin].
  apply to_common_slots_sound in Hin. destruct Hin as [Hin Hdur].
  split; [assumption|].
  destruct (intersect_users_sound _ _ _ _ _ Hfold Hin) as [[c [Hc Hwc]] Hall].
  constructor.
  - apply in_map_iff in Hc. destruct Hc as [s [<- Hs]]. exists s. tauto.
  - rewrite List.Forall_forall in Hall. apply List.Forall_forall.
    intros slots Hslots.
    destruct (Hall (map slot_range slots)) as [r [Hr Hwr]].
    { apply in_map. assumption. }
    apply in_map_iff in Hr. destruct Hr as [s [<- Hs]]. exists s. tauto.
Qed.

End CommonSlots.

(** ** The availability aggregation *)

Section Aggregation.
Import CalendarService.

Lemma odict_set_in {V : Type} (k k' : string) (v v' : V) (d : odict V) :
  In (k', v') (odict_set k v d) -> (k' = k /\ v' = v) \/ In (k', v') d.
Proof.
  induction d as [|[k0 v0] d IH]; cbn [odict_set]; intros Hin.
  - destruct Hin as [Heq | []]. injection Heq as <- <-. left. split; reflexivity.
  - destruct (String.eqb k0 k) eqn:Hk.
    + apply String.eqb_eq in Hk. subst k0.
      destruct Hin as [Heq | Hin]; [|right; right; assumption].
      injection Heq as <- <-. left. split; reflexivity.
    + destruct Hin as [Heq | Hin]; [right; left; assumption|].
      destruct (IH Hin) as [Hnew | Hold]; [left | right; right]; assumption.
Qed.

Lemma odict_set_keys {V : Type} (k u : string) (v : V) (d : odict V) :
  u = k \/ In u (odict_keys d) -> In u (odict_keys (odict_set k v d)).
Proof.
  unfold odict_keys.
  induction d as [|[k0 v0] d IH]; cbn [odict_set map fst]; intros Hin.
  - destruct Hin as [-> | []]. left. reflexivity.
  - destruct (String.eqb k0 k) eqn:Hk; cbn [map fst].
    + apply String.eqb_eq in Hk. subst k0.
      destruct Hin as [-> | [<- | Hin]]; [left | left | right]; auto.
    + destruct Hin as [-> | [<- | Hin]];
        [right; apply IH; left | left | right; apply IH; right]; auto.
Qed.

(** When the loop over the users finishes, [all_availability] holds, for every
    requested user, what [get_availability] returned for that user. *)
Lemma collect_availability_sound (self : t) (s e : datetime) (tz : string)
    (user_ids : list string) :
  forall acc d : odict (list Slot),
  collect_availability self user_ids s e tz acc = Some d ->
  (forall k v, In (k, v) acc -> get_availability self k s e tz = Return v) ->
  (forall k v, In (k, v) d -> get_availability self k s e tz = Return v) /\
  (forall u, In u user_ids \/ In u (odict_keys acc) -> In u (odict_keys d)).
Proof.
  induction user_ids as [|user_id user_ids IH]; intros acc d Hres Hacc;
    cbn [collect_availability] in Hres.
  - injection Hres as <-. split; [assumption|].
    intros u [[] | Hu]. assumption.
  - destruct (get_availability self user_id s e tz) as [availability|] eqn:Hget;
      [|discriminate].
    destruct (IH _ _ Hres) as [Hvals Hkeys].
    { intros k v Hin. apply odict_set_in in Hin.
      destruct Hin as [[-> ->] | Hin]; [assumption | apply Hacc; assumption]. }
    split; [assumption|].
    intros u Hu. apply Hkeys.
    destruct Hu as [[<- | Hu] | Hu]; [right | left | right]; try assumption;
      apply odict_set_keys; [left; reflexivity | right; assumption].
Qed.

(** The slots [get_availability] returns for a user lie in the requested
    range and meet none of the busy periods fetched for that user. *)
Lemma get_availability_sound (self : t) (u : string) (s e : datetime)
    (tz : string) (slots : list Slot) (slot : Slot) :
  get_availability self u s e tz = Return slots ->
  In slot slots ->
  s <= start_time slot /\ end_time slot <= e /\
  forall busy, busy_intervals self u s e tz = Some busy ->
    Forall (fun b => ~ overlaps (start_time slot) (end_time slot) b) busy.
Proof.
  unfold get_availability, busy_intervals.
  destruct (_get_integration self u) as [g|]; [|discriminate].
  intros Hret Hin. injection Hret as <-.
  unfold GoogleCalendarIntegration.get_availability in Hin.
  destruct (GoogleCalendarIntegration.freebusy g u s e tz) as [busy_ranges|];
    [|destruct Hin].
  apply availability_loop_sound in Hin.
  destruct Hin as [k [Hk [-> [Hend Hav]]]]. cbn [start_time end_time].
  pose proof slot_duration_pos as Hpos.
  split; [nia|]. split; [assumption|].
  intros busy Hbusy. injection Hbusy as <-.
  apply is_available_true. assumption.
Qed.

Lemma in_odict_values {V : Type} (d : odict V) (v : V) :
  In v (odict_values d) -> exists k, In (k, v) d.
Proof.
  unfold odict_values. intros Hin. apply in_map_iff in Hin.
  destruct Hin as [[k v'] [Heq Hin]]. cbn in Heq. subst v'. exists k. assumption.
Qed.

Lemma in_odict_keys {V : Type} (d : odict V) (k : string) :
  In k (odict_keys d) -> exists v, In (k, v) d.
Proof.
  unfold odict_keys. intros Hin. apply in_map_iff in Hin.
  destruct Hin as [[k' v] [Heq Hin]]. cbn in Heq. subst k'. exists v. assumption.
Qed.

(** Every slot of the common availability lies inside a free slot of every
    requested user, and is at least [duration_minutes] long. *)
Lemma get_common_availability_sound (self : t) (user_ids : list string)
    (s e : datetime) (d : Z) (tz : string) (slots : list Slot) (slot : Slot) :
  get_common_availability self user_ids s e d tz = Return slots ->
  In slot slots ->
  minutes d <= end_time slot - start_time slot /\
  (exists u own, get_availability self u s e tz = Return own /\
     exists s0, In s0 own /\ within (slot_range slot) (slot_range s0)) /\
  forall u, In u user_ids ->
    exists own, get_availability self u s e tz = Return own /\
      exists s0, In s0 own /\ within (slot_range slot) (slot_range s0).
Proof.
  unfold get_common_availability. intros Hret Hin.
  destruct (collect_availability self user_ids s e tz []) as [all|] eqn:Hall;
    injection Hret as <-; [|destruct Hin].
  destruct (collect_availability_sound _ _ _ _ _ _ _ Hall) as [Hvals Hkeys].
  { intros k v []. }
  destruct (_find_common_slots_sound _ _ _ _ Hin) as [Hdur Hcover].
  rewrite List.Forall_forall in Hcover.
  split; [assumption|]. split.
  - unfold _find_common_slots in Hin.
    destruct (odict_values all) as [|first_user others] eqn:Hv; [destruct Hin|].
    assert (In first_user (odict_values all)) as Hfirst by (rewrite Hv; left; reflexivity).
    destruct (in_odict_values _ _ Hfirst) as [u Hu].
    exists u, first_user. split; [apply Hvals; assumption|].
    apply Hcover. left. reflexivity.
  - intros u Hu.
    destruct (in_odict_keys all u) as [own Hown]; [apply Hkeys; left; assumption|].
    exists own. split; [apply Hvals; assumption|].
    apply Hcover. unfold odict_values. apply in_map_iff.
    exists (u, own). split; [reflexivity | assumption].
Qed.

(** C2. No busy interval of a participant overlaps a slot the availability
    aggregation returns: for every slot of [get_common_availability], every
    requested participant and every busy period fetched for that participant,
    the period does not overlap [[slot.start, slot.end)]. *)
Theorem common_slots_avoid_busy (self : t) (user_ids : list string)
    (s e : datetime) (d : Z) (tz : string) (slots : list Slot) (slot : Slot)
    (u : string) (busy : list busy_range) (b : busy_range) :
  get_common_availability self user_ids s e d tz = Return slots ->
  In slot slots ->
  In u user_ids ->
  busy_intervals self u s e tz = Some busy ->
  In b busy ->
  ~ overlaps (start_time slot) (end_time slot) b.
Proof.
  intros Hret Hslot Hu Hbusy Hb.
  destruct (get_common_availability_sound _ _ _ _ _ _ _ _ Hret Hslot)
    as [_ [_ Hall]].
  destruct (Hall u Hu) as [own [Hown [s0 [Hs0 Hw]]]].
  destruct (get_availability_sound _ _ _ _ _ _ _ Hown Hs0) as [_ [_ Hfree]].
  specialize (Hfree busy Hbusy). rewrite List.Forall_forall in Hfree.
  specialize (Hfree b Hb).
  unfold within, slot_range in Hw. cbn [fst snd] in Hw.
  unfold overlaps in *. lia.
Qed.


End Aggregation.

(** ** The 30-minute grid *)

Section Grid.
Import CalendarService.

Lemma grid_windows_meet (s : datetime) (k k' : Z) :
  Z.max (fst (grid_window s k)) (fst (grid_window s k'))
    < Z.min (snd (grid_window s k)) (snd (grid_window s k')) ->
  k = k'.
Proof.
  unfold grid_window. cbn [fst snd]. pose proof slot_duration_pos as Hpos.
  intros Hlt.
  destruct (Z.lt_trichotomy k k') as [Hk | [Hk | Hk]]; [exfalso | assumption | exfalso].
  - assert ((k + 1) * GoogleCalendarIntegration.slot_duration
            <= k' * GoogleCalendarIntegration.slot_duration) by nia.
    pose proof (Z.le_max_r (s + k * GoogleCalendarIntegration.slot_duration)
                  (s + k' * GoogleCalendarIntegration.slot_duration)).
    pose proof (Z.le_min_l (s + (k + 1) * GoogleCalendarIntegration.slot_duration)
                  (s + (k' + 1) * GoogleCalendarIntegration.slot_duration)).
    lia.
  - assert ((k' + 1) * GoogleCalendarIntegration.slot_duration
            <= k * GoogleCalendarIntegration.slot_duration) by nia.
    pose proof (Z.le_max_l (s + k * GoogleCalendarIntegration.slot_duration)
                  (s + k' * GoogleCalendarIntegration.slot_duration)).
    pose proof (Z.le_min_r (s + (k + 1) * GoogleCalendarIntegration.slot_duration)
                  (s + (k' + 1) * GoogleCalendarIntegration.slot_duration)).
    lia.
Qed.

Lemma intersect_ranges_grid (s : datetime) (potential_common user_slots : list range)
    (d : Z) :
  Forall (on_grid s) potential_common -> Forall (on_grid s) user_slots ->
  Forall (on_grid s) (intersect_ranges potential_common user_slots d).
Proof.
  intros HP HU. rewrite List.Forall_forall in HP, HU. apply List.Forall_forall.
  intros r Hin. unfold intersect_ranges in Hin.
  apply in_flat_map in Hin. destruct Hin as [c [Hc Hin]].
  apply in_flat_map in Hin. destruct Hin as [u [Hu Hin]]. cbv zeta in Hin.
  destruct (HP c Hc) as [k [Hk ->]]. destruct (HU u Hu) as [k' [Hk' ->]].
  match type of Hin with
  | In _ (if ?test then _ else _) => destruct test eqn:Htest; [|destruct Hin]
  end.
  destruct Hin as [<- | []].
  apply andb_true_iff in Htest. destruct Htest as [Hlt _]. apply Z.ltb_lt in Hlt.
  apply grid_windows_meet in Hlt. subst k'.
  exists k. split; [assumption|].
  rewrite Z.max_id, Z.min_id. reflexivity.
Qed.

Lemma intersect_users_grid (s : datetime) (others : list (list range)) :
  forall (potential_common result : list range) (d : Z),
  Forall (on_grid s) potential_common ->
  Forall (Forall (on_grid s)) others ->
  intersect_users potential_common others d = Some result ->
  Forall (on_grid s) result.
Proof.
  induction others as [|user_slots others IH];
    intros potential_common result d HP HO Hres; cbn [intersect_users] in Hres.
  - injection Hres as <-. assumption.
  - inversion HO as [|? ? HU HO']; subst.
    pose proof (intersect_ranges_grid s _ _ d HP HU) as Hnew.
    destruct (intersect_ranges potential_common user_slots d) as [|r0 new_common];
      [discriminate|].
    eapply IH; eassumption.
Qed.

(** The slots [get_availability] returns for a user are windows of the grid
    that starts at the range start. *)
Lemma get_availability_grid (self : t) (u : string) (s e : datetime)
    (tz : string) (slots : list Slot) :
  get_availability self u s e tz = Return slots ->
  Forall (on_grid s) (map slot_range slots).
Proof.
  unfold get_availability.
  destruct (_get_integration self u) as [g|]; [|discriminate].
  intros Hret. injection Hret as <-.
  apply List.Forall_forall. intros r Hr. apply in_map_iff in Hr.
  destruct Hr as [slot [<- Hin]].
  unfold GoogleCalendarIntegration.get_availability in Hin.
  destruct (GoogleCalendarIntegration.freebusy g u s e tz) as [busy_ranges|];
    [|destruct Hin].
  apply availability_loop_sound in Hin.
  destruct Hin as [k [Hk [-> _]]]. exists k. split; [lia | reflexivity].
Qed.

(** The common slots are windows of that grid too, each 30 minutes long. *)
Lemma get_common_availability_grid (self : t) (user_ids : list string)
    (s e : datetime) (d : Z) (tz : string) (slots : list Slot) (slot : Slot) :
  get_common_availability self user_ids s e d tz = Return slots ->
  In slot slots ->
  exists k : Z, 0 <= k /\
    slot = mkSlot (s + k * GoogleCalendarIntegration.slot_duration)
                  (s + (k + 1) * GoogleCalendarIntegration.slot_duration) 30.
Proof.
  unfold get_common_availability. intros Hret Hin.
  destruct (collect_availability self user_ids s e tz []) as [all|] eqn:Hall;
    injection Hret as <-; [|destruct Hin].
  destruct (collect_availability_sound _ _ _ _ _ _ _ Hall) as [Hvals _].
  { intros k v []. }
  assert (Forall (fun v => Forall (on_grid s) (map slot_range v)) (odict_values all))
    as Hgrid.
  { apply List.Forall_forall. intros v Hv.
    destruct (in_odict_values _ _ Hv) as [k Hk].
    eapply get_availability_grid. apply Hvals. eassumption. }
  unfold _find_common_slots in Hin.
  destruct (odict_values all) as [|first_user others]; [destruct Hin|].
  inversion Hgrid as [|? ? Hfirst Hothers]; subst.
  destruct (intersect_users (map slot_range first_user)
              (map (map slot_range) others) d) as [potential_common|] eqn:Hfold;
    [|destruct Hin].
  assert (Forall (on_grid s) potential_common) as Hres.
  { eapply intersect_users_grid; [exact Hfirst | | exact Hfold].
    apply List.Forall_forall. intros l Hl. apply in_map_iff in Hl.
    destruct Hl as [v [<- Hv]].
    rewrite List.Forall_forall in Hothers. apply Hothers. assumption. }
  unfold to_common_slots in Hin. apply in_flat_map in Hin.
  destruct Hin as [r [Hr Hin]].
  rewrite List.Forall_forall in Hres. destruct (Hres r Hr) as [k [Hk ->]].
  unfold grid_window in Hin. cbn [fst snd] in Hin.
  destruct (minutes d <=? _); [|destruct Hin].
  destruct Hin as [<- | []]. exists k. split; [assumption|].
  f_equal.
  replace (s + (k + 1) * GoogleCalendarIntegration.slot_duration
           - (s + k * GoogleCalendarIntegration.slot_duration))
    with GoogleCalendarIntegration.slot_duration by lia.
  reflexivity.
Qed.

End Grid.

(** ** Claims on the availability aggregation *)

Section AggregationClaims.
Import CalendarService.

(** In the scenario, 09:00-09:30 is a common slot of A and B and does not
    meet A's busy hour. *)
Lemma common_slots_avoid_busy_witness :
  In (mkSlot (at_time 9 0) (at_time 9 30) 30) scenario_half_hours /\
  ~ overlaps (at_time 9 0) (at_time 9 30) (at_hour 10, at_hour 11).
Proof.
  split; [left; reflexivity|].
  apply (common_slots_avoid_busy scenario_service ["A"; "B"] (at_hour 9)
           (at_hour 17) 30 "UTC" scenario_half_hours
           (mkSlot (at_time 9 0) (at_time 9 30) 30) "A"
           [(at_hour 10, at_hour 11)] (at_hour 10, at_hour 11)).
  - vm_compute. reflexivity.
  - left. reflexivity.
  - left. reflexivity.
  - vm_compute. reflexivity.
  - left. reflexivity.
Defined.


(** C3, as stated, fails: C has no calendar provider, so fetching C's
    availability raises; the request for A and C then returns the empty list
    as an ordinary value, the very value the request for A and D returns,
    where every fetch succeeds and the intersection is empty.  E's free/busy
    request fails inside the integration, with the same outcome. *)
Lemma fetch_failure_is_not_an_error :
  get_availability scenario_service "C" (at_hour 9) (at_hour 17) "UTC"
    = Raise (ValueError "No calendar provider set for user C") /\
  busy_intervals scenario_service "E" (at_hour 9) (at_hour 17) "UTC" = None /\
  get_common_availability scenario_service ["A"; "C"] (at_hour 9) (at_hour 17) 30 "UTC"
    = Return [] /\
  get_common_availability scenario_service ["A"; "E"] (at_hour 9) (at_hour 17) 30 "UTC"
    = Return [] /\
  get_common_availability scenario_service ["A"; "D"] (at_hour 9) (at_hour 17) 30 "UTC"
    = Return [].
Proof. vm_compute. repeat split; reflexivity. Qed.

(** C3, amended.  When the busy periods of some requested participant cannot
    be fetched, [get_common_availability] returns the empty list: nothing is
    computed from the reachable participants.  The call never raises, so this
    outcome is the one an empty intersection has. *)
Theorem fetch_failure_gives_empty_list (self : t) (user_ids : list string)
    (s e : datetime) (d : Z) (tz : string) (u : string) :
  In u user_ids ->
  busy_intervals self u s e tz = None ->
  get_common_availability self user_ids s e d tz = Return [].
Proof.
  intros Hu Hfail.
  destruct (get_common_availability self user_ids s e d tz) as [slots|ex]
    eqn:Hret.
  - destruct slots as [|slot slots]; [reflexivity | exfalso].
    destruct (get_common_availability_sound _ _ _ _ _ _ _ slot Hret)
      as [_ [_ Hall]]; [left; reflexivity|].
    destruct (Hall u Hu) as [own [Hown [s0 [Hs0 _]]]].
    unfold get_availability in Hown. unfold busy_intervals in Hfail.
    destruct (_get_integration self u) as [g|]; [|discriminate].
    injection Hown as <-.
    unfold GoogleCalendarIntegration.get_availability in Hs0.
    rewrite Hfail in Hs0. destruct Hs0.
  - unfold get_common_availability in Hret.
    destruct (collect_availability self user_ids s e tz []); discriminate.
Qed.

Lemma fetch_failure_gives_empty_list_witness :
  get_common_availability scenario_service ["A"; "C"] (at_hour 9) (at_hour 17) 30 "UTC"
    = Return [].
Proof.
  apply (fetch_failure_gives_empty_list scenario_service ["A"; "C"] (at_hour 9)
           (at_hour 17) 30 "UTC" "C").
  - right. left. reflexivity.
  - vm_compute. reflexivity.
Defined.



End AggregationClaims.

(** ** The aggregation returns its slots in chronological order *)

Section Chronological.
Import CalendarService.

Lemma StronglySorted_app {A : Type} (R : A -> A -> Prop) (l1 l2 : list A) :
  StronglySorted R l1 -> StronglySorted R l2 ->
  (forall a b, In a l1 -> In b l2 -> R a b) ->
  StronglySorted R (l1 ++ l2).
Proof.
  intros H1 H2 H12. induction H1 as [|a l1 Hl1 IH Ha]; cbn [app]; [assumption|].
  constructor.
  - apply IH. intros x y Hx Hy. apply H12; [right|]; assumption.
  - apply List.Forall_forall. intros b Hb. apply in_app_or in Hb.
    destruct Hb as [Hb | Hb].
    + rewrite List.Forall_forall in Ha. apply Ha. assumption.
    + apply H12; [left; reflexivity | assumption].
Qed.

Lemma StronglySorted_flat_map {A B : Type} (R : A -> A -> Prop)
    (R' : B -> B -> Prop) (f : A -> list B) (l : list A) :
  StronglySorted R l ->
  (forall a, In a l -> StronglySorted R' (f a)) ->
  (forall a b x y, R a b -> In x (f a) -> In y (f b) -> R' x y) ->
  StronglySorted R' (flat_map f l).
Proof.
  intros Hl Hf Hcross. induction Hl as [|a l Hl IH Ha]; cbn [flat_map];
    [constructor|].
  apply StronglySorted_app.
  - apply Hf. left. reflexivity.
  - apply IH. intros b Hb. apply Hf. right. assumption.
  - intros x y Hx Hy. apply in_flat_map in Hy. destruct Hy as [b [Hb Hy]].
    rewrite List.Forall_forall in Ha. eapply Hcross; [apply Ha| |]; eassumption.
Qed.

(** One candidate intersection: empty, or a single range inside both. *)
Lemma intersection_within (c u : range) (d : Z) (x : range) :
  In x (let intersection_start := Z.max (fst c) (fst u) in
        let intersection_end := Z.min (snd c) (snd u) in
        if (intersection_start <? intersection_end)
           && (minutes d <=? intersection_end - intersection_start)
        then [(intersection_start, intersection_end)]
        else []) ->
  within x c /\ within x u /\ proper x.
Proof.
  cbv zeta. intros Hin.
  match type of Hin with
  | In _ (if ?test then _ else _) => destruct test eqn:Htest; [|destruct Hin]
  end.
  destruct Hin as [<- | []].
  apply andb_true_iff in Htest. destruct Htest as [Hlt _]. apply Z.ltb_lt in Hlt.
  unfold within, proper. cbn [fst snd].
  repeat split; try assumption;
    auto using Z.le_max_l, Z.le_max_r, Z.le_min_l, Z.le_min_r.
Qed.

Lemma intersect_ranges_chain (potential_common user_slots : list range) (d : Z) :
  chain potential_common -> chain user_slots ->
  chain (intersect_ranges potential_common user_slots d).
Proof.
  intros [_ HP] [_ HU]. split.
  - apply List.Forall_forall. intros r Hr.
    destruct (intersect_ranges_sound _ _ _ _ Hr) as [c [u [_ [_ [_ [_ [Hp _]]]]]]].
    assumption.
  - unfold intersect_ranges.
    apply (StronglySorted_flat_map precedes precedes); [assumption | |].
    + intros c _.
      apply (StronglySorted_flat_map precedes precedes); [assumption | |].
      * intros u _.
        cbv zeta.
        match goal with
        | |- StronglySorted _ (if ?test then _ else _) => destruct test
        end; repeat constructor.
      * intros u u' x y Huu' Hx Hy.
        apply intersection_within in Hx. apply intersection_within in Hy.
        unfold within, precedes in *. lia.
    + intros c c' x y Hcc' Hx Hy.
      apply in_flat_map in Hx. destruct Hx as [u [_ Hx]].
      apply in_flat_map in Hy. destruct Hy as [u' [_ Hy]].
      apply intersection_within in Hx. apply intersection_within in Hy.
      unfold within, precedes in *. lia.
Qed.

Lemma intersect_users_chain (others : list (list range)) :
  forall (potential_common result : list range) (d : Z),
  chain potential_common -> Forall chain others ->
  intersect_users potential_common others d = Some result ->
  chain result.
Proof.
  induction others as [|user_slots others IH];
    intros potential_common result d HP HO Hres; cbn [intersect_users] in Hres.
  - injection Hres as <-. assumption.
  - inversion HO as [|? ? HU HO']; subst.
    pose proof (intersect_ranges_chain _ _ d HP HU) as Hnew.
    destruct (intersect_ranges potential_common user_slots d) as [|r0 new_common];
      [discriminate|].
    eapply IH; eassumption.
Qed.

(** The free slots of one participant form a chain. *)
Lemma availability_loop_chain (fuel : nat) (busy_ranges : list busy_range)
    (e c : datetime) :
  chain (map slot_range
           (GoogleCalendarIntegration.availability_loop fuel busy_ranges e c)).
Proof.
  pose proof slot_duration_pos as Hpos.
  split.
  - apply List.Forall_forall. intros r Hr. apply in_map_iff in Hr.
    destruct Hr as [slot [<- Hin]]. apply availability_loop_sound in Hin.
    destruct Hin as [k [_ [-> _]]]. unfold proper, slot_range. cbn. lia.
  - revert c. induction fuel as [|fuel IH]; intros c;
      cbn [GoogleCalendarIntegration.availability_loop]; [constructor|].
    destruct (c + GoogleCalendarIntegration.slot_duration <=? e); [|constructor].
    destruct (GoogleCalendarIntegration.is_available busy_ranges c
                (c + GoogleCalendarIntegration.slot_duration)); [|apply IH].
    cbn [map]. constructor; [apply IH|].
    apply List.Forall_forall. intros r Hr. apply in_map_iff in Hr.
    destruct Hr as [slot [<- Hin]]. apply availability_loop_sound in Hin.
    destruct Hin as [k [Hk [-> _]]]. unfold precedes, slot_range. cbn. nia.
Qed.

Lemma get_availability_chain (self : t) (u : string) (s e : datetime)
    (tz : string) (slots : list Slot) :
  get_availability self u s e tz = Return slots ->
  chain (map slot_range slots).
Proof.
  unfold get_availability.
  destruct (_get_integration self u) as [g|]; [|discriminate].
  intros Hret. injection Hret as <-.
  unfold GoogleCalendarIntegration.get_availability.
  destruct (GoogleCalendarIntegration.freebusy g u s e tz) as [busy_ranges|].
  - apply availability_loop_chain.
  - split; constructor.
Qed.

(** The common slots come in strictly increasing order of their start. *)
Lemma get_common_availability_chronological (self : t) (user_ids : list string)
    (s e : datetime) (d : Z) (tz : string) (slots : list Slot) :
  get_common_availability self user_ids s e d tz = Return slots ->
  StronglySorted (fun a b => start_time a < start_time b) slots.
Proof.
  unfold get_common_availability. intros Hret.
  destruct (collect_availability self user_ids s e tz []) as [all|] eqn:Hall;
    injection Hret as <-; [|constructor].
  destruct (collect_availability_sound _ _ _ _ _ _ _ Hall) as [Hvals _].
  { intros k v []. }
  assert (Forall (fun v => chain (map slot_range v)) (odict_values all)) as Hch.
  { apply List.Forall_forall. intros v Hv.
    destruct (in_odict_values _ _ Hv) as [k Hk].
    eapply get_availability_chain. apply Hvals. eassumption. }
  unfold _find_common_slots.
  destruct (odict_values all) as [|first_user others]; [constructor|].
  inversion Hch as [|? ? Hfirst Hothers]; subst.
  destruct (intersect_users (map slot_range first_user)
              (map (map slot_range) others) d) as [potential_common|] eqn:Hfold;
    [|constructor].
  assert (chain potential_common) as [Hproper Hsorted].
  { eapply intersect_users_chain; [exact Hfirst | | exact Hfold].
    apply List.Forall_forall. intros l Hl. apply in_map_iff in Hl.
    destruct Hl as [v [<- Hv]].
    rewrite List.Forall_forall in Hothers. apply Hothers. assumption. }
  unfold to_common_slots.
  apply (StronglySorted_flat_map
           (fun r1 r2 => proper r1 /\ precedes r1 r2)
           (fun a b => start_time a < start_time b)).
  - clear Hfold. induction Hsorted as [|r l Hl IH Hr]; [constructor|].
    inversion Hproper as [|? ? Hpr Hpl]; subst.
    constructor; [apply IH; assumption|].
    apply List.Forall_forall. intros r' Hr'.
    rewrite List.Forall_forall in Hr. split; [assumption | apply Hr; assumption].
  - intros r _.
    match goal with
    | |- StronglySorted _ (if ?test then _ else _) => destruct test
    end; repeat constructor.
  - intros r r' x y [Hpr Hprec] Hx Hy.
    match type of Hx with
    | In _ (if ?test then _ else _) => destruct test; [|destruct Hx]
    end.
    match type of Hy with
    | In _ (if ?test then _ else _) => destruct test; [|destruct Hy]
    end.
    destruct Hx as [<- | []]. destruct Hy as [<- | []].
    unfold proper, precedes in *. cbn. unfold range, datetime in *. lia.
Qed.

End Chronological.

(** ** The order of binary64 numbers *)

Section FloatOrder.

Ltac sf_compare :=
  repeat match goal with
  | |- context [Z.compare ?a ?b] => destruct (Z.compare_spec a b); subst
  | |- context [Pos.compare_cont Eq ?a ?b] =>
      change (Pos.compare_cont Eq a b) with (Pos.compare a b);
      destruct (Pos.compare_spec a b); subst
  end;
  cbn; try congruence; try lia.

Lemma SFltb_asym (f1 f2 : spec_float) :
  SFltb f1 f2 = true -> SFltb f2 f1 = false.
Proof.
  unfold SFltb, SFcompare.
  destruct f1 as [[|]|[|]| |[|] m1 e1], f2 as [[|]|[|]| |[|] m2 e2];
    try congruence; sf_compare.
Qed.

Lemma SFltb_negtrans (f1 f2 f3 : spec_float) :
  f2 <> S754_nan ->
  SFltb f1 f2 = false -> SFltb f2 f3 = false -> SFltb f1 f3 = false.
Proof.
  unfold SFltb, SFcompare.
  destruct f1 as [[|]|[|]| |[|] m1 e1], f2 as [[|]|[|]| |[|] m2 e2],
           f3 as [[|]|[|]| |[|] m3 e3];
    try congruence; sf_compare.
Qed.


Lemma SFleb_of_not_ltb (f1 f2 : spec_float) :
  f1 <> S754_nan -> f2 <> S754_nan ->
  SFltb f1 f2 = false -> SFleb f2 f1 = true.
Proof.
  unfold SFleb, SFltb, SFcompare.
  destruct f1 as [[|]|[|]| |[|] m1 e1], f2 as [[|]|[|]| |[|] m2 e2];
    try congruence; sf_compare.
Qed.

(** A float that is not NaN is not the NaN of the specification. *)
Lemma not_nan_spec (x : float) :
  PrimFloat.is_nan x = false -> Prim2SF x <> S754_nan.
Proof.
  unfold PrimFloat.is_nan. rewrite FloatAxioms.eqb_spec. intros Hnan Heq.
  rewrite Heq in Hnan. discriminate.
Qed.

Lemma float_ltb_asym (x y : float) :
  PrimFloat.ltb x y = true -> PrimFloat.ltb y x = false.
Proof. rewrite !FloatAxioms.ltb_spec. apply SFltb_asym. Qed.

Lemma float_ltb_negtrans (x y z : float) :
  PrimFloat.is_nan y = false ->
  PrimFloat.ltb x y = false -> PrimFloat.ltb y z = false ->
  PrimFloat.ltb x z = false.
Proof.
  rewrite !FloatAxioms.ltb_spec. intros Hy. apply SFltb_negtrans. apply not_nan_spec. assumption.
Qed.


Lemma float_leb_of_not_ltb (x y : float) :
  PrimFloat.is_nan x = false -> PrimFloat.is_nan y = false ->
  PrimFloat.ltb x y = false -> PrimFloat.leb y x = true.
Proof.
  rewrite FloatAxioms.ltb_spec, FloatAxioms.leb_spec. intros Hx Hy.
  apply SFleb_of_not_ltb; apply not_nan_spec; assumption.
Qed.

End FloatOrder.

(** ** Scoring *)

Section Scoring.
Context {F : Type} `{Arith F}.

Lemma accumulate_scores_fst (clock : datetime)
    (constraints : list (SchedulingConstraint F)) (slot : Slot) (context : Context) :
  fst (accumulate_scores clock constraints slot context)
  = weighted_sum clock constraints slot context.
Proof.
  unfold accumulate_scores, weighted_sum.
  generalize (@nil (string * F)). generalize zero.
  induction constraints as [|c constraints IH]; intros acc scores; cbn; [reflexivity|].
  apply IH.
Qed.

(** The score attached to a slot is the quotient of the two sums when the
    total weight is positive, and [1.0] otherwise. *)
Lemma score_slot_formula (clock : datetime)
    (constraints : list (SchedulingConstraint F)) (context : Context) (slot : Slot) :
  score (score_slot clock constraints context slot)
  = if lt zero (total_weight constraints)
    then div (weighted_sum clock constraints slot context) (total_weight constraints)
    else one.
Proof.
  unfold score_slot. rewrite <- accumulate_scores_fst.
  destruct (accumulate_scores clock constraints slot context) as [ws cs].
  reflexivity.
Qed.

Hypothesis add_comm : forall x y : F, add x y = add y x.
Hypothesis add_assoc : forall x y z : F, add (add x y) z = add x (add y z).

(** A left-to-right sum does not depend on the order of its terms when the
    addition is associative and commutative. *)
Lemma fold_add_permutation (l l' : list F) :
  Permutation l l' -> forall a : F, fold_left add l a = fold_left add l' a.
Proof.
  induction 1 as [|x l l' _ IH|x y l|l l' l'' _ IH1 _ IH2]; intros a; cbn.
  - reflexivity.
  - apply IH.
  - f_equal. rewrite !add_assoc. f_equal. apply add_comm.
  - rewrite IH1. apply IH2.
Qed.

Lemma score_slot_permutation (clock : datetime)
    (constraints constraints' : list (SchedulingConstraint F))
    (context : Context) (slot : Slot) :
  Permutation constraints constraints' ->
  score (score_slot clock constraints context slot)
  = score (score_slot clock constraints' context slot).
Proof.
  intros Hperm. rewrite !score_slot_formula.
  assert (total_weight constraints = total_weight constraints') as ->.
  { unfold total_weight. apply fold_add_permutation.
    apply Permutation_map. assumption. }
  assert (weighted_sum clock constraints slot context
          = weighted_sum clock constraints' slot context) as ->.
  { unfold weighted_sum. apply fold_add_permutation.
    apply Permutation_map. assumption. }
  reflexivity.
Qed.

End Scoring.

(** Addition of rationals is commutative and associative on the nose. *)
Lemma Qplus_comm_eq (x y : Q) : Qplus x y = Qplus y x.
Proof.
  destruct x as [a b], y as [c d]. unfold Qplus. cbn [Qnum Qden].
  f_equal; [lia | apply Pos.mul_comm].
Qed.

Lemma Qplus_assoc_eq (x y z : Q) : Qplus (Qplus x y) z = Qplus x (Qplus y z).
Proof.
  destruct x as [a b], y as [c d], z as [e f]. unfold Qplus. cbn [Qnum Qden].
  f_equal; [rewrite !Pos2Z.inj_mul; ring | symmetry; apply Pos.mul_assoc].
Qed.

(** C7, as stated, fails on binary64 numbers: for the default constraints
    followed by a morning preference and the Monday 14:00 slot, exchanging the
    last two constraints changes the score of the slot. *)
Lemma binary64_score_depends_on_order :
  Permutation morning_constraints morning_constraints_reordered /\
  score (score_slot two_days_before morning_constraints utc_context afternoon_slot)
    = 0.8115384615384617%float /\
  score (score_slot two_days_before morning_constraints_reordered utc_context
           afternoon_slot)
    = 0.8115384615384614%float /\
  PrimFloat.eqb 0.8115384615384617%float 0.8115384615384614%float = false.
Proof.
  split; [|vm_compute; repeat split; reflexivity].
  unfold morning_constraints, morning_constraints_reordered.
  apply perm_skip. apply perm_swap.
Qed.

(** C7, amended.  The aggregate score of a slot is the quotient of the
    weighted sum of its scores by the sum of the weights, both accumulated in
    list order in binary64 arithmetic, when the sum of the weights is
    positive, and 1.0 otherwise, as when there is no constraint.  It is
    unchanged under every permutation of the constraints in an arithmetic
    whose addition is commutative and associative, such as exact arithmetic;
    binary64 addition is not. *)
Theorem aggregate_score_formula :
  (forall (clock : datetime) (constraints : list (SchedulingConstraint float))
          (context : Context) (slot : Slot),
     score (score_slot clock constraints context slot)
     = if PrimFloat.ltb 0 (total_weight constraints)
       then PrimFloat.div (weighted_sum clock constraints slot context)
                          (total_weight constraints)
       else 1%float) /\
  (forall (clock : datetime) (context : Context) (slot : Slot),
     score (score_slot (F := float) clock [] context slot) = 1%float) /\
  (forall (F : Type) (arith : Arith F),
     (forall x y : F, add x y = add y x) ->
     (forall x y z : F, add (add x y) z = add x (add y z)) ->
     forall (clock : datetime) (constraints constraints' : list (SchedulingConstraint F))
            (context : Context) (slot : Slot),
     Permutation constraints constraints' ->
     score (score_slot clock constraints context slot)
     = score (score_slot clock constraints' context slot)).
Proof.
  split; [|split].
  - intros clock constraints context slot.
    exact (score_slot_formula clock constraints context slot).
  - intros clock context slot. reflexivity.
  - intros F arith Hcomm Hassoc clock constraints constraints' context slot Hperm.
    apply score_slot_permutation; assumption.
Qed.

(** In exact arithmetic the two orders of the constraints give one score. *)
Lemma aggregate_score_formula_witness :
  score (score_slot two_days_before exact_constraints utc_context afternoon_slot)
  = score (score_slot two_days_before exact_constraints_reordered utc_context
             afternoon_slot).
Proof.
  apply (proj2 (proj2 aggregate_score_formula) Q Q_arith Qplus_comm_eq
           Qplus_assoc_eq).
  unfold exact_constraints, exact_constraints_reordered.
  apply perm_skip. apply perm_swap.
Defined.

(** ** Ranking *)

Section SortMembers.
Context {A K : Type} (key : A -> K) (ltb : K -> K -> bool).

Lemma in_insert_desc (x a : A) (l : list A) :
  In a (insert_desc key ltb x l) <-> a = x \/ In a l.
Proof.
  induction l as [|y l IH]; cbn [insert_desc].
  - cbn. intuition congruence.
  - destruct (ltb (key x) (key y)); cbn [In]; [rewrite IH|]; intuition congruence.
Qed.

Lemma in_sorted_desc (a : A) (l : list A) :
  In a (sorted_desc key ltb l) <-> In a l.
Proof.
  induction l as [|x l IH]; cbn [sorted_desc fold_right]; [reflexivity|].
  fold (sorted_desc key ltb l). rewrite in_insert_desc, IH. cbn. intuition congruence.
Qed.

End SortMembers.

Section StableSort.
Context {A K : Type} (key : A -> K) (ltb : K -> K -> bool).
Context (ok : K -> Prop) (ord : A -> A -> Prop).

Hypothesis ltb_asym : forall x y, ltb x y = true -> ltb y x = false.
Hypothesis ltb_negtrans :
  forall x y z, ok y -> ltb x y = false -> ltb y z = false -> ltb x z = false.

Lemma insert_desc_sorted (x : A) (l : list A) :
  Forall (fun a => ok (key a)) l ->
  Forall (ord x) l ->
  StronglySorted (ranked_before key ltb ord) l ->
  StronglySorted (ranked_before key ltb ord) (insert_desc key ltb x l).
Proof.
  intros Hok Hord Hsorted.
  induction Hsorted as [|y l Hl IH Hy]; cbn [insert_desc]; [repeat constructor|].
  inversion Hok as [|? ? Hoky Hokl]; subst.
  inversion Hord as [|? ? Hordy Hordl]; subst.
  pose proof Hy as Hy'. pose proof Hordl as Hordl'.
  rewrite List.Forall_forall in Hy, Hordl.
  destruct (ltb (key x) (key y)) eqn:Hxy.
  - constructor; [apply IH; assumption|].
    apply List.Forall_forall. intros z Hz.
    apply (proj1 (in_insert_desc _ _ _ _ _)) in Hz.
    destruct Hz as [-> | Hz]; [|apply Hy; assumption].
    split; [apply ltb_asym; assumption | congruence].
  - constructor; [constructor; assumption|].
    constructor.
    + split; [assumption | intros _; assumption].
    + apply List.Forall_forall. intros z Hz. split.
      * apply (ltb_negtrans _ (key y)); [assumption | assumption |].
        apply (Hy z Hz).
      * intros _. apply Hordl. assumption.
Qed.

(** Sorting a list that is in the order [ord] ranks it: keys descend, and
    among equal keys the order [ord] of the input is kept. *)
Lemma sorted_desc_ranked (l : list A) :
  Forall (fun a => ok (key a)) l ->
  StronglySorted ord l ->
  StronglySorted (ranked_before key ltb ord) (sorted_desc key ltb l).
Proof.
  intros Hok Hsorted.
  induction Hsorted as [|x l Hl IH Hx]; cbn [sorted_desc fold_right]; [constructor|].
  fold (sorted_desc key ltb l).
  inversion Hok as [|? ? Hokx Hokl]; subst.
  pose proof Hokl as Hokl'.
  rewrite List.Forall_forall in Hx, Hokl.
  apply insert_desc_sorted.
  - apply List.Forall_forall. intros a Ha.
    apply (proj1 (in_sorted_desc _ _ _ _)) in Ha. apply Hokl. assumption.
  - apply List.Forall_forall. intros a Ha.
    apply (proj1 (in_sorted_desc _ _ _ _)) in Ha. apply Hx. assumption.
  - apply IH. assumption.
Qed.

End StableSort.

Lemma in_firstn {A : Type} (n : nat) (l : list A) (x : A) :
  In x (firstn n l) -> In x l.
Proof.
  revert l. induction n as [|n IH]; intros [|a l]; cbn [firstn In]; try tauto.
  intros [-> | Hx]; [left; reflexivity | right; apply IH; assumption].
Qed.





Lemma score_of_score_slot_slot `{Arith F} (clock : datetime)
    (constraints : list (SchedulingConstraint F)) (context : Context) (slot : Slot) :
  slot_of (score_slot clock constraints context slot) = slot.
Proof.
  unfold score_slot.
  destruct (accumulate_scores clock constraints slot context). reflexivity.
Qed.


(** ** The interview scheduler *)

Section InterviewSchedulerFacts.
Import InterviewScheduler.
Context {W : Type} {system : System W} {availability : CalendarAvailability W}
  {calendar : CalendarEvents W} {zones : TimeZones}.

Lemma bind_unfold {A B : Type} (m : M W A) (k : A -> M W B) (env : Env W) :
  (m ≫= k) env
  = match m env with
    | (Return a, env') => k a env'
    | (Raise e, env') => (Raise e, env')
    end.
Proof. reflexivity. Qed.

(** The deletion loop calls [delete_event] once for every entry of [events],
    in order, whatever each call answers, and never raises. *)
Lemma delete_events_calls (events : odict Event) :
  forall env : Env W,
  exists env' : Env W,
    delete_events events env = (Return tt, env') /\
    calls env' = calls env
                 ++ map (fun entry => DeleteEvent (fst entry) (event_id (snd entry)))
                      events.
Proof.
  induction events as [|[participant_id event_data] events IH]; intros env.
  - exists env. split; [reflexivity|]. cbn [map]. symmetry. apply List.app_nil_r.
  - cbn [delete_events]. rewrite bind_unfold.
    unfold try_except at 1. rewrite bind_unfold. unfold invoke at 1.
    destruct (delete_event (world env) participant_id (event_id event_data))
      as [[deleted|ex] w].
    + destruct (IH (mkEnv w (calls env
                               ++ [DeleteEvent participant_id (event_id event_data)])))
        as [env' [Hrun Hcalls]].
      exists env'. split; [exact Hrun|].
      rewrite Hcalls. cbn [calls map fst snd]. rewrite <- app_assoc. reflexivity.
    + destruct (IH (mkEnv w (calls env
                               ++ [DeleteEvent participant_id (event_id event_data)])))
        as [env' [Hrun Hcalls]].
      exists env'. split; [exact Hrun|].
      rewrite Hcalls. cbn [calls map fst snd]. rewrite <- app_assoc. reflexivity.
Qed.

(** C9, amended.  [cancel_interview] never looks up the interview it is given:
    whatever [interview_id] is, it calls [delete_event] for the three entries
    of the event map of the simulated interview, in order, then sends the
    cancellation notification when there is a communication service, and
    returns a record with the given id, the simulated event map and the status
    "cancelled". *)
Theorem cancel_interview_deletes_simulated_events (self : t W)
    (interview_id reason : string) (env : Env W) :
  exists (interview : Interview) (env' : Env W),
    cancel_interview self interview_id reason env = (Return interview, env') /\
    id interview = interview_id /\
    status interview = "cancelled" /\
    events interview = simulated_events /\
    calls env' =
      calls env
      ++ [DeleteEvent "candidate_67890" "event_1";
          DeleteEvent "interviewer_11111" "event_2";
          DeleteEvent "interviewer_22222" "event_3"]
      ++ match communication_service self with
         | Some _ => [SendCancellationNotification interview_id reason]
         | None => []
         end.
Proof.
  unfold cancel_interview. rewrite bind_unfold.
  destruct (delete_events_calls simulated_events env) as [env1 [Hrun Hcalls]].
  rewrite Hrun. cbn [map simulated_events fst snd event_id] in Hcalls.
  rewrite bind_unfold.
  destruct (communication_service self) as [service|].
  - unfold try_except, invoke.
    destruct (send_cancellation_notification service (world env1) interview_id reason)
      as [[[]|ex] w];
      (eexists; eexists; split; [reflexivity|]; cbn;
       repeat split; rewrite Hcalls, <- app_assoc; reflexivity).
  - eexists; eexists; split; [reflexivity|]. cbn.
    repeat split. rewrite Hcalls. reflexivity.
Qed.

End InterviewSchedulerFacts.

(** C9, as stated, fails: alice interviews bob, and both get an event; when
    that interview is cancelled, [delete_event] is called for neither alice
    nor bob, but for the three participants of the simulated interview. *)
Lemma cancel_ignores_scheduled_events :
  (exists interview env,
      mock_scheduled = (Return interview, env) /\
      InterviewScheduler.events interview
        = [("alice", mkEvent "event_1001"); ("bob", mkEvent "event_1002")]) /\
  List.filter (fun c => match c with DeleteEvent _ _ => true | _ => false end)
    (calls (snd mock_cancelled))
  = [DeleteEvent "candidate_67890" "event_1";
     DeleteEvent "interviewer_11111" "event_2";
     DeleteEvent "interviewer_22222" "event_3"].
Proof.
  split.
  - eexists. eexists. split; vm_compute; reflexivity.
  - vm_compute. reflexivity.
Qed.

(** ** The candidate self-scheduling service *)

Section CandidateSchedulingFacts.
Import InterviewScheduler CandidateSchedulingService.
Context {W : Type} {system : System W} {availability : CalendarAvailability W}
  {calendar : CalendarEvents W} {zones : TimeZones}.


Lemma validate_token_valid (self : t W) (token : string) (token_data : TokenData)
    (env : Env W) :
  tokens self !! token = Some token_data ->
  (expiration token_data <? now (world env)) = false ->
  validate_token self token env = (Return token_data, env).
Proof.
  unfold validate_token. intros -> Hfresh.
  rewrite bind_unfold. unfold get_now. rewrite Hfresh. reflexivity.
Qed.




(** C10. With a token that is valid and not expired, but for which no slots
    are stored, [confirm_slot] raises
    [ValueError("No available slots for this token")] and leaves the service
    (token store and stored slots) and the world (no call made) unchanged. *)
Theorem confirm_without_listed_slots (self : t W) (token slot_id : string)
    (token_data : TokenData) (env : Env W) :
  tokens self !! token = Some token_data ->
  (expiration token_data <? now (world env)) = false ->
  available_slots self !! token = None ->
  confirm_slot self token slot_id env
  = (Raise (ValueError "No available slots for this token"), self, env).
Proof.
  intros Htoken Hfresh Hnone. unfold confirm_slot.
  rewrite bind_unfold, (validate_token_valid _ _ _ _ Htoken Hfresh), Hnone.
  reflexivity.
Qed.

End CandidateSchedulingFacts.

(** ** Listing the slots of a token *)

Section ListingFacts.
Import InterviewScheduler CandidateSchedulingService.
Context {W : Type} {system : System W} {availability : CalendarAvailability W}
  {calendar : CalendarEvents W} {zones : TimeZones}.



(** [get_available_slots], step by step. *)
Lemma get_available_slots_run (self : t W) (token : string) (env : Env W) :
  get_available_slots self token env
  = match tokens self !! token with
    | None => (Raise (ValueError "Invalid token"), self, env)
    | Some token_data =>
        if expiration token_data <? now (world env)
        then (Raise (ValueError "Token expired"), self, env)
        else
          match find_available_slots (interview_scheduler self)
                  (token_job_id token_data) (token_candidate_id token_data)
                  ["interviewer_11111"; "interviewer_22222"] 60
                  (now (world env) + days_delta 1, now (world env) + days_delta 10)
                  None "UTC" 10 env with
          | (Return slots, env') =>
              (Return slots,
               mk (interview_scheduler self) (tokens self)
                  (<[token := slots]> (available_slots self)),
               env')
          | (Raise e, env') => (Raise e, self, env')
          end
    end.
Proof.
  unfold get_available_slots, validate_token. rewrite bind_unfold.
  destruct (tokens self !! token) as [token_data|]; [|reflexivity].
  rewrite bind_unfold. unfold get_now at 1.
  destruct (expiration token_data <? now (world env)); [reflexivity|].
  cbn [mret M_ret]. rewrite bind_unfold. unfold get_now at 1. reflexivity.
Qed.


End ListingFacts.


(** ** The self-scheduling session on the mock *)

Section MockSession.
Import InterviewScheduler CandidateSchedulingService.





(** A token that was issued but whose slots were never listed. *)
Lemma confirm_without_listed_slots_witness :
  confirm_slot (service_after mock_issued) mock_token mock_slot_id
    (env_after mock_issued)
  = (Raise (ValueError "No available slots for this token"),
     service_after mock_issued, env_after mock_issued).
Proof.
  eapply confirm_without_listed_slots.
  - vm_compute. reflexivity.
  - vm_compute. reflexivity.
  - vm_compute. reflexivity.
Defined.


End MockSession.

(** * Further properties of the embedded code *)

(** ** The common availability as an intersection *)

Section Intersection.
Import CalendarService.

(** A slot of a participant, in full: a window of the grid, 30 minutes long. *)
Lemma get_availability_window (self : t) (u : string) (s e : datetime)
    (tz : string) (own : list Slot) (slot : Slot) :
  get_availability self u s e tz = Return own ->
  In slot own ->
  exists k : Z, 0 <= k /\
    slot = mkSlot (s + k * GoogleCalendarIntegration.slot_duration)
                  (s + (k + 1) * GoogleCalendarIntegration.slot_duration) 30.
Proof.
  unfold get_availability.
  destruct (_get_integration self u) as [g|]; [|discriminate].
  intros Hret Hin. injection Hret as <-.
  unfold GoogleCalendarIntegration.get_availability in Hin.
  destruct (GoogleCalendarIntegration.freebusy g u s e tz) as [busy_ranges|];
    [|destruct Hin].
  apply availability_loop_sound in Hin.
  destruct Hin as [k [Hk [-> _]]]. exists k. split; [lia | reflexivity].
Qed.

(** A range that every user has, and that is long enough, survives the fold
    over the users. *)
Lemma intersect_users_complete (others : list (list range)) :
  forall (potential_common : list range) (d : Z) (r : range),
  In r potential_common ->
  Forall (fun user_slots => In r user_slots) others ->
  proper r -> minutes d <= snd r - fst r ->
  exists result,
    intersect_users potential_common others d = Some result /\ In r result.
Proof.
  induction others as [|user_slots others IH];
    intros potential_common d r Hin Hall Hproper Hlong; cbn [intersect_users].
  - exists potential_common. split; [reflexivity | assumption].
  - inversion Hall as [|? ? Hu Hothers]; subst.
    assert (In r (intersect_ranges potential_common user_slots d)) as Hnew.
    { unfold intersect_ranges. apply in_flat_map. exists r. split; [assumption|].
      apply in_flat_map. exists r. split; [assumption|]. cbv zeta.
      unfold proper in Hproper. destruct r as [a b]. cbn [fst snd] in *.
      rewrite Z.max_id, Z.min_id.
      apply Z.ltb_lt in Hproper. rewrite Hproper.
      apply Z.leb_le in Hlong. rewrite Hlong. left. reflexivity. }
    destruct (intersect_ranges potential_common user_slots d) as [|r0 new_common]
      eqn:Hnewl; [destruct Hnew|].
    apply IH; assumption.
Qed.

(** The loop over the users finishes when every call of [get_availability]
    returns, and the keys it leaves are requested users. *)
Lemma collect_availability_complete (self : t) (s e : datetime) (tz : string)
    (user_ids : list string) :
  forall acc : odict (list Slot),
  (forall u, In u user_ids -> exists own, get_availability self u s e tz = Return own) ->
  exists d, collect_availability self user_ids s e tz acc = Some d /\
    forall k, In k (odict_keys d) -> In k user_ids \/ In k (odict_keys acc).
Proof.
  induction user_ids as [|user_id user_ids IH]; intros acc Hall;
    cbn [collect_availability].
  - exists acc. split; [reflexivity|]. intros k Hk. right. assumption.
  - destruct (Hall user_id) as [own Hown]; [left; reflexivity|]. rewrite Hown.
    destruct (IH (odict_set user_id own acc)) as [d [Hd Hkeys]].
    { intros u Hu. apply Hall. right. assumption. }
    exists d. split; [assumption|].
    intros k Hk. destruct (Hkeys k Hk) as [Hin | Hin]; [left; right; assumption|].
    destruct (in_odict_keys _ _ Hin) as [v Hv].
    apply odict_set_in in Hv. destruct Hv as [[-> _] | Hv].
    + left. left. reflexivity.
    + right. unfold odict_keys. apply in_map_iff. exists (k, v). split; [reflexivity | assumption].
Qed.

(** A common slot is a slot of every requested participant. *)
Lemma common_slot_in_every_own (self : t) (user_ids : list string)
    (s e : datetime) (d : Z) (tz : string) (slots : list Slot) (slot : Slot) :
  get_common_availability self user_ids s e d tz = Return slots ->
  In slot slots ->
  user_ids <> [] /\
  minutes d <= GoogleCalendarIntegration.slot_duration /\
  forall u, In u user_ids ->
    exists own, get_availability self u s e tz = Return own /\ In slot own.
Proof.
  intros Hret Hin. pose proof slot_duration_pos as Hpos.
  destruct (get_common_availability_sound _ _ _ _ _ _ _ _ Hret Hin)
    as [Hdur [_ Hall]].
  destruct (get_common_availability_grid _ _ _ _ _ _ _ _ Hret Hin)
    as [k [Hk Hslot]].
  split; [|split].
  - intros ->. cbn in Hret. injection Hret as <-. destruct Hin.
  - subst slot. cbn [start_time end_time] in Hdur. lia.
  - intros u Hu. destruct (Hall u Hu) as [own [Hown [s0 [Hs0 Hw]]]].
    exists own. split; [assumption|].
    destruct (get_availability_window _ _ _ _ _ _ _ Hown Hs0) as [k' [Hk' Hs0']].
    subst slot s0. unfold within, slot_range in Hw.
    cbn [fst snd start_time end_time] in Hw.
    assert (k = k') as -> by nia. assumption.
Qed.

(** A slot of every requested participant is a common slot, when the duration
    fits. *)
Lemma common_availability_complete (self : t) (user_ids : list string)
    (s e : datetime) (d : Z) (tz : string) (slots : list Slot) (slot : Slot) :
  get_common_availability self user_ids s e d tz = Return slots ->
  user_ids <> [] ->
  minutes d <= GoogleCalendarIntegration.slot_duration ->
  (forall u, In u user_ids ->
     exists own, get_availability self u s e tz = Return own /\ In slot own) ->
  In slot slots.
Proof.
  intros Hret Hne Hfit Hall. pose proof slot_duration_pos as Hpos.
  unfold get_common_availability in Hret.
  destruct (collect_availability_complete self s e tz user_ids [])
    as [all [Hcollect Hkeys]].
  { intros u Hu. destruct (Hall u Hu) as [own [Hown _]]. exists own. assumption. }
  rewrite Hcollect in Hret. injection Hret as <-.
  destruct (collect_availability_sound _ _ _ _ _ _ _ Hcollect) as [Hvals Hreq].
  { intros k v []. }
  assert (forall v, In v (odict_values all) -> In slot v) as Hevery.
  { intros v Hv. destruct (in_odict_values _ _ Hv) as [k Hk].
    assert (In k user_ids) as Hku.
    { destruct (Hkeys k) as [Hin | []]; [|assumption].
      unfold odict_keys. apply in_map_iff. exists (k, v).
      split; [reflexivity | assumption]. }
    destruct (Hall k Hku) as [own [Hown Hin]].
    rewrite (Hvals k v Hk) in Hown. injection Hown as ->. assumption. }
  destruct user_ids as [|u0 user_ids]; [congruence|].
  destruct (Hall u0) as [own0 [Hown0 Hin0]]; [left; reflexivity|].
  destruct (get_availability_window _ _ _ _ _ _ _ Hown0 Hin0) as [k [Hk Hslot]].
  unfold _find_common_slots.
  destruct (odict_values all) as [|first_user others] eqn:Hvalues.
  { exfalso.
    assert (In u0 (odict_keys all)) as Hu0 by (apply Hreq; left; left; reflexivity).
    destruct (in_odict_keys _ _ Hu0) as [v Hv].
    assert (In v (odict_values all)) as Hv'.
    { unfold odict_values. apply in_map_iff. exists (u0, v).
      split; [reflexivity | assumption]. }
    rewrite Hvalues in Hv'. destruct Hv'. }
  destruct (intersect_users_complete (map (map slot_range) others)
              (map slot_range first_user) d (slot_range slot))
    as [result [Hfold Hres]].
  - apply in_map. apply Hevery. left. reflexivity.
  - apply List.Forall_forall. intros l Hl. apply in_map_iff in Hl.
    destruct Hl as [v [<- Hv]]. apply in_map. apply Hevery. right. assumption.
  - subst slot. unfold proper, slot_range. cbn. lia.
  - subst slot. unfold slot_range. cbn. lia.
  - rewrite Hfold. unfold to_common_slots. apply in_flat_map.
    exists (slot_range slot). split; [assumption|].
    subst slot. unfold slot_range. cbn [fst snd start_time end_time].
    replace (s + (k + 1) * GoogleCalendarIntegration.slot_duration
             - (s + k * GoogleCalendarIntegration.slot_duration))
      with GoogleCalendarIntegration.slot_duration by lia.
    apply Z.leb_le in Hfit. rewrite Hfit. left. reflexivity.
Qed.







(** Two lists in the same strict order with the same members are equal. *)
Lemma sorted_same_members {A : Type} (R : A -> A -> Prop) :
  (forall a, ~ R a a) -> (forall a b c, R a b -> R b c -> R a c) ->
  forall l1 l2 : list A,
  StronglySorted R l1 -> StronglySorted R l2 ->
  (forall x, In x l1 <-> In x l2) -> l1 = l2.
Proof.
  intros Hirr Htrans. induction l1 as [|a l1 IH]; intros [|b l2] H1 H2 Hsame.
  - reflexivity.
  - exfalso. apply (Hsame b). left. reflexivity.
  - exfalso. apply (Hsame a). left. reflexivity.
  - inversion H1 as [|? ? Hs1 Ha]; subst. inversion H2 as [|? ? Hs2 Hb]; subst.
    rewrite List.Forall_forall in Ha, Hb.
    assert (a = b) as ->.
    { destruct (proj1 (Hsame a) (or_introl eq_refl)) as [Hab | Hab]; [congruence|].
      destruct (proj2 (Hsame b) (or_introl eq_refl)) as [Hba | Hba]; [assumption|].
      exfalso. apply (Hirr a). eapply Htrans; [apply Ha | apply Hb]; assumption. }
    f_equal. apply IH; [assumption | assumption |].
    intros x. split; intros Hx.
    + destruct (proj1 (Hsame x) (or_intror Hx)) as [<- | Hx']; [|assumption].
      exfalso. apply (Hirr b). apply Ha. assumption.
    + destruct (proj2 (Hsame x) (or_intror Hx)) as [<- | Hx']; [|assumption].
      exfalso. apply (Hirr b). apply Hb. assumption.
Qed.

(** X4. The order and the repetition of the participants do not matter: two
    requests that name the same participants get the same list of common
    slots. *)
Theorem participants_order_is_irrelevant (self : t) (user_ids user_ids' : list string)
    (s e : datetime) (d : Z) (tz : string) :
  (forall u, In u user_ids <-> In u user_ids') ->
  get_common_availability self user_ids s e d tz
  = get_common_availability self user_ids' s e d tz.
Proof.
  intros Hsame.
  assert (forall (l l' : list string) slots slots',
            (forall u, In u l <-> In u l') ->
            get_common_availability self l s e d tz = Return slots ->
            get_common_availability self l' s e d tz = Return slots' ->
            forall slot, In slot slots -> In slot slots') as Hinclusion.
  { intros l l' slots slots' Hll' Hret Hret' slot Hin.
    destruct (common_slot_in_every_own _ _ _ _ _ _ _ _ Hret Hin) as [Hne [Hfit Hall]].
    eapply common_availability_complete; [exact Hret' | | assumption |].
    - intros ->. destruct l as [|u l]; [congruence|].
      apply (Hll' u). left. reflexivity.
    - intros u Hu. apply Hall. apply Hll'. assumption. }
  destruct (get_common_availability self user_ids s e d tz) as [slots|ex] eqn:Hret;
    [|unfold get_common_availability in Hret;
      destruct (collect_availability self user_ids s e tz []); discriminate].
  destruct (get_common_availability self user_ids' s e d tz) as [slots'|ex] eqn:Hret';
    [|unfold get_common_availability in Hret';
      destruct (collect_availability self user_ids' s e tz []); discriminate].
  f_equal.
  apply (sorted_same_members (fun a b => start_time a < start_time b)).
  - intros a. lia.
  - intros a b c. lia.
  - eapply get_common_availability_chronological. eassumption.
  - eapply get_common_availability_chronological. eassumption.
  - intros slot. split.
    + eapply Hinclusion; eassumption.
    + eapply Hinclusion; [|eassumption|eassumption].
      intros u. symmetry. apply Hsame.
Qed.

Lemma participants_order_is_irrelevant_witness :
  get_common_availability scenario_service ["A"; "B"] (at_hour 9) (at_hour 17) 30 "UTC"
  = get_common_availability scenario_service ["B"; "A"; "B"] (at_hour 9) (at_hour 17)
      30 "UTC".
Proof.
  apply (participants_order_is_irrelevant scenario_service ["A"; "B"]
           ["B"; "A"; "B"] (at_hour 9) (at_hour 17) 30 "UTC").
  intros u. cbn [In]. tauto.
Defined.




(** X7. For any availability lists, not only those of the grid, every slot
    [_find_common_slots] returns lasts at least the duration asked for, lies
    inside one slot of every user, and carries as [duration_minutes] the whole
    minutes of its own length, not the value of the slots it comes from. *)
Theorem common_slots_lie_in_every_users_slots
    (all_availability : odict (list Slot)) (d : Z) (tz : string) :
  Forall
    (fun slot =>
       minutes d <= end_time slot - start_time slot /\
       duration_minutes slot = (end_time slot - start_time slot) ÷ 60000000 /\
       Forall (fun slots => exists s0, In s0 slots /\
                              within (slot_range slot) (slot_range s0))
         (odict_values all_availability))
    (_find_common_slots all_availability d tz).
Proof.
  apply List.Forall_forall. intros slot Hin.
  destruct (_find_common_slots_sound _ _ _ _ Hin) as [Hdur Hcover].
  split; [assumption|]. split; [|assumption].
  unfold _find_common_slots in Hin.
  destruct (odict_values all_availability) as [|first_user others]; [destruct Hin|].
  destruct (intersect_users _ _ d) as [potential_common|]; [|destruct Hin].
  unfold to_common_slots in Hin. apply in_flat_map in Hin.
  destruct Hin as [r [_ Hin]].
  match type of Hin with
  | In _ (if ?test then _ else _) => destruct test; [|destruct Hin]
  end.
  destruct Hin as [<- | []]. reflexivity.
Qed.

(** X8. One user without any availability empties the result, whatever the
    others have. *)
Theorem empty_availability_empties_result (all_availability : odict (list Slot))
    (d : Z) (tz : string) :
  In [] (odict_values all_availability) ->
  _find_common_slots all_availability d tz = [].
Proof.
  intros Hempty.
  destruct (_find_common_slots all_availability d tz) as [|slot slots] eqn:Hres;
    [reflexivity | exfalso].
  destruct (_find_common_slots_sound all_availability d tz slot) as [_ Hcover];
    [rewrite Hres; left; reflexivity|].
  rewrite List.Forall_forall in Hcover.
  destruct (Hcover [] Hempty) as [s0 [[] _]].
Qed.

Lemma empty_availability_empties_result_witness :
  _find_common_slots
    [("A", [mkSlot (at_hour 9) (at_hour 10) 60]); ("B", [])] 30 "UTC" = [].
Proof.
  apply (empty_availability_empties_result
           [("A", [mkSlot (at_hour 9) (at_hour 10) 60]); ("B", [])] 30 "UTC").
  right. left. reflexivity.
Defined.

End Intersection.

(** ** Registering integrations and providers *)

Section Registry.
Import CalendarService CalendarServiceSetup.

Lemma lower_ascii_idempotent (c : ascii) : lower_ascii (lower_ascii c) = lower_ascii c.
Proof. destruct c as [[] [] [] [] [] [] [] []]; reflexivity. Qed.

Lemma lower_idempotent (s : string) : lower (lower s) = lower s.
Proof.
  induction s as [|c s IH]; cbn [lower]; [reflexivity|].
  rewrite lower_ascii_idempotent, IH. reflexivity.
Qed.

Lemma lower_nonempty (s : string) : s <> "" -> lower s <> "".
Proof. destruct s; cbn [lower]; congruence. Qed.

(** X9. Provider names are matched without regard to case: once an
    integration is registered under a non-empty name and a user is set to a
    name that differs from it only in case, in either order, the integration
    of the user is that one. *)
Theorem registered_provider_is_found (self : t) (provider provider' : string)
    (integration : GoogleCalendarIntegration.t) (user_id : string) :
  provider <> "" ->
  lower provider' = lower provider ->
  _get_integration
    (set_user_provider (register_integration self provider integration) user_id
       provider') user_id
  = Return integration /\
  _get_integration
    (register_integration (set_user_provider self user_id provider') provider
       integration) user_id
  = Return integration.
Proof.
  intros Hne Hsame. apply lower_nonempty in Hne.
  unfold _get_integration, set_user_provider, register_integration.
  cbn [user_providers integrations].
  rewrite !lookup_insert_eq, Hsame.
  destruct (lower provider) as [|c rest] eqn:Hlower; [congruence|].
  rewrite !lookup_insert_eq. split; reflexivity.
Qed.

Lemma registered_provider_is_found_witness :
  _get_integration
    (set_user_provider (register_integration init "Google" scenario_google) "A"
       "GOOGLE") "A"
  = Return scenario_google /\
  _get_integration
    (register_integration (set_user_provider init "A" "GOOGLE") "Google"
       scenario_google) "A"
  = Return scenario_google.
Proof.
  apply (registered_provider_is_found init "Google" "GOOGLE" scenario_google "A").
  - discriminate.
  - reflexivity.
Defined.



End Registry.

(** ** The constraints and the scores they give *)

Section ConstraintFacts.
Context {zones : TimeZones}.

Lemma SFleb_of_ltb (f1 f2 : spec_float) :
  SFltb f1 f2 = true -> SFleb f1 f2 = true.
Proof.
  unfold SFleb, SFltb.
  destruct (SFcompare f1 f2) as [[| |]|]; congruence.
Qed.

Lemma max_half_floor (x : float) : PrimFloat.leb 0.5 (max_half x) = true.
Proof.
  unfold max_half. destruct (PrimFloat.ltb 0.5 x) eqn:Hlt; [|reflexivity].
  rewrite FloatAxioms.ltb_spec in Hlt. rewrite FloatAxioms.leb_spec.
  apply SFleb_of_ltb. assumption.
Qed.

Ltac split_tests :=
  repeat match goal with
  | |- context [if ?test then _ else _] => destruct test
  end; try reflexivity; apply max_half_floor.

(** X11. A DateRangeConstraint has two kinds of bounds.  A slot that starts
    before [earliest_date] or after [latest_date] scores 0.  Any other slot
    scores at least 0.5 (so never NaN) however far it lies from the preferred
    range, and exactly 1 inside the preferred range. *)
Theorem date_range_score_floor (earliest latest preferred_start preferred_end
    : option datetime) (w : float) (clock : datetime) (slot : Slot)
    (context : Context) :
  let constraint :=
    DateRangeConstraint earliest latest preferred_start preferred_end w in
  let outside :=
    (exists d, earliest = Some d /\ start_time slot < d) \/
    (exists d, latest = Some d /\ d < start_time slot) in
  (outside -> evaluate constraint clock slot context = 0%float) /\
  (~ outside ->
   PrimFloat.leb 0.5 (evaluate constraint clock slot context) = true) /\
  (~ outside ->
   (forall ps pe, preferred_start = Some ps -> preferred_end = Some pe ->
      ps <= start_time slot <= pe) ->
   evaluate constraint clock slot context = 1%float).
Proof.
  cbn zeta. unfold DateRangeConstraint. cbn [evaluate].
  split; [|split].
  - intros [[d [-> Hd]]|[d [-> Hd]]].
    + apply Z.ltb_lt in Hd. rewrite Hd. reflexivity.
    + apply Z.ltb_lt in Hd. rewrite Hd.
      destruct earliest as [d'|]; [destruct (start_time slot <? d')|]; reflexivity.
  - intros Hin.
    assert (Hearly : match earliest with
                     | Some d => start_time slot <? d | None => false end = false).
    { destruct earliest as [d|]; [|reflexivity].
      destruct (Z.ltb_spec (start_time slot) d); [|reflexivity].
      exfalso; apply Hin; left; eauto. }
    assert (Hlate : match latest with
                    | Some d => d <? start_time slot | None => false end = false).
    { destruct latest as [d|]; [|reflexivity].
      destruct (Z.ltb_spec d (start_time slot)); [|reflexivity].
      exfalso; apply Hin; right; eauto. }
    rewrite Hearly, Hlate.
    destruct preferred_start as [ps|], preferred_end as [pe|]; try reflexivity.
    split_tests.
  - intros Hin Hpref.
    assert (Hearly : match earliest with
                     | Some d => start_time slot <? d | None => false end = false).
    { destruct earliest as [d|]; [|reflexivity].
      destruct (Z.ltb_spec (start_time slot) d); [|reflexivity].
      exfalso; apply Hin; left; eauto. }
    assert (Hlate : match latest with
                    | Some d => d <? start_time slot | None => false end = false).
    { destruct latest as [d|]; [|reflexivity].
      destruct (Z.ltb_spec d (start_time slot)); [|reflexivity].
      exfalso; apply Hin; right; eauto. }
    rewrite Hearly, Hlate.
    destruct preferred_start as [ps|], preferred_end as [pe|]; try reflexivity.
    destruct (Hpref ps pe eq_refl eq_refl) as [H1 H2].
    apply Z.leb_le in H1, H2. rewrite H1, H2. reflexivity.
Qed.

(** X12. The preference of a TimePreferenceConstraint is compared in lower
    case: a preference scores every slot as its lower-case form does. *)
Theorem time_preference_ignores_case (preference : string) (w : float)
    (clock : datetime) (slot : Slot) (context : Context) :
  evaluate (TimePreferenceConstraint preference w) clock slot context
  = evaluate (TimePreferenceConstraint (lower preference) w) clock slot context.
Proof.
  unfold TimePreferenceConstraint. cbn [evaluate].
  rewrite lower_idempotent. reflexivity.
Qed.

(** X13. A preference that is none of any, morning, afternoon and evening is
    not an error: the constraint scores every slot 0.3, whatever its hour. *)
Theorem unknown_time_preference_scores_low (preference : string) (w : float)
    (clock : datetime) (slot : Slot) (context : Context) :
  ~ In (lower preference) ["any"; "morning"; "afternoon"; "evening"] ->
  evaluate (TimePreferenceConstraint preference w) clock slot context = 0.3%float.
Proof.
  intros Hnot. unfold TimePreferenceConstraint. cbn [evaluate]. cbv beta zeta.
  assert (Hneq : forall p, In p ["any"; "morning"; "afternoon"; "evening"] ->
                   String.eqb (lower preference) p = false).
  { intros p Hp. apply String.eqb_neq. intros Heq. subst p. contradiction. }
  rewrite (Hneq "any"), (Hneq "morning"), (Hneq "afternoon"), (Hneq "evening")
    by (cbn; tauto).
  reflexivity.
Qed.

End ConstraintFacts.

Lemma unknown_time_preference_scores_low_witness :
  evaluate (@TimePreferenceConstraint utc_zones "Night" 0.7%float) (at_hour 0)
    afternoon_slot utc_context
  = 0.3%float.
Proof.
  apply (unknown_time_preference_scores_low (zones := utc_zones) "Night" 0.7%float
           (at_hour 0) afternoon_slot utc_context).
  cbn. intros [H|[H|[H|[H|[]]]]]; discriminate H.
Defined.

(** ** What a search returns *)

Section RankingFacts.
Import ConstraintBasedScheduler.

Lemma odict_get_set {V : Type} (k k' : string) (v : V) (d : odict V) :
  odict_get k' (odict_set k v d)
  = if String.eqb k k' then Some v else odict_get k' d.
Proof.
  induction d as [|[k0 v0] d IH]; cbn [odict_set odict_get].
  - destruct (String.eqb k k'); reflexivity.
  - destruct (String.eqb_spec k0 k) as [->|Hk0]; cbn [odict_get].
    + destruct (String.eqb k k'); reflexivity.
    + rewrite IH. destruct (String.eqb_spec k0 k') as [->|Hk0']; [|reflexivity].
      destruct (String.eqb_spec k k') as [->|_]; [congruence | reflexivity].
Qed.

Lemma find_app_last {A : Type} (p : A -> bool) (l : list A) (a : A) :
  find p (l ++ [a])
  = match find p l with
    | Some x => Some x
    | None => if p a then Some a else None
    end.
Proof.
  induction l as [|x l IH]; cbn [app find]; [reflexivity|].
  destruct (p x); [reflexivity | exact IH].
Qed.

Lemma accumulate_scores_get `{Arith F} (clock : datetime)
    (constraints : list (SchedulingConstraint F)) (slot : Slot) (context : Context)
    (name : string) (acc : F * odict F) :
  odict_get name
    (snd (fold_left (fun acc constraint =>
             let score := evaluate constraint clock slot context in
             (add (fst acc) (mul score (weight constraint)),
              odict_set (class_name constraint) score (snd acc)))
            constraints acc))
  = match find (fun c => String.eqb (class_name c) name) (rev constraints) with
    | Some c => Some (evaluate c clock slot context)
    | None => odict_get name (snd acc)
    end.
Proof.
  revert acc. induction constraints as [|c constraints IH]; intros acc;
    cbn [fold_left rev find]; [reflexivity|].
  rewrite IH, find_app_last. cbn [snd].
  destruct (find (fun c0 => String.eqb (class_name c0) name) (rev constraints));
    [reflexivity|].
  rewrite odict_get_set. destruct (String.eqb (class_name c) name); reflexivity.
Qed.

(** X14. [constraint_scores] has one entry per constraint class: under a class
    name it holds the score of the last constraint of that class in the list,
    and nothing under the name of a class that is not in the list.  (The
    weighted score still counts every constraint.) *)
Theorem constraint_scores_keep_last_of_class `{Arith F} (clock : datetime)
    (constraints : list (SchedulingConstraint F)) (context : Context)
    (slot : Slot) (name : string) :
  odict_get name (constraint_scores (score_slot clock constraints context slot))
  = option_map (fun c => evaluate c clock slot context)
      (find (fun c => String.eqb (class_name c) name) (rev constraints)).
Proof.
  assert (constraint_scores (score_slot clock constraints context slot)
          = snd (accumulate_scores clock constraints slot context)) as ->.
  { unfold score_slot.
    destruct (accumulate_scores clock constraints slot context). reflexivity. }
  unfold accumulate_scores.
  etransitivity; [apply accumulate_scores_get|].
  destruct (find (fun c => String.eqb (class_name c) name) (rev constraints));
    reflexivity.
Qed.

(** X15. The constraints a search applies are the default constraints, then
    the explicit constraints, then at most three constraints derived from the
    preferences: explicit constraints and preferences never replace a default.
    Without preferences nothing is derived; what is derived is a
    TimePreferenceConstraint of weight 0.7, a DayAvoidanceConstraint of weight
    0.8 or a DateRangeConstraint of weight 0.6. *)
Theorem preferences_only_add_constraints {zones : TimeZones} (self : t)
    (constraints : list (SchedulingConstraint float))
    (preferences : option Preferences) :
  exists derived,
    _prepare_constraints self constraints preferences
    = default_constraints self ++ constraints ++ derived /\
    (length derived <= 3)%nat /\
    (preferences = None -> derived = []) /\
    Forall (fun c => In (class_name c, weight c)
                       [("TimePreferenceConstraint", 0.7%float);
                        ("DayAvoidanceConstraint", 0.8%float);
                        ("DateRangeConstraint", 0.6%float)]) derived.
Proof.
  unfold _prepare_constraints.
  destruct preferences as [[tod am af aw ps pe]|].
  - cbn [preferred_time_of_day avoid_mondays avoid_fridays avoid_weekends
         preferred_start_date preferred_end_date].
    destruct tod as [tod|], am, af, aw, ps as [ps|], pe as [pe|]; cbn [app];
      rewrite <- ?app_assoc;
      first [ eexists; split; [reflexivity|]
            | exists []; split; [rewrite app_nil_r; reflexivity|] ];
      (split; [cbn [length app]; lia|]);
      (split; [discriminate|]);
      repeat (apply List.Forall_cons;
              [unfold TimePreferenceConstraint, DayAvoidanceConstraint,
                 DateRangeConstraint;
               cbn [class_name weight In]; tauto|]);
      apply List.Forall_nil.
  - exists []. rewrite app_nil_r. repeat split; [cbn; lia | constructor].
Qed.

Lemma insert_desc_permutation {A K : Type} (key : A -> K) (ltb : K -> K -> bool)
    (x : A) (l : list A) :
  Permutation (insert_desc key ltb x l) (x :: l).
Proof.
  induction l as [|y l IH]; cbn [insert_desc]; [reflexivity|].
  destruct (ltb (key x) (key y)); [|reflexivity].
  rewrite IH. apply perm_swap.
Qed.

Lemma sorted_desc_permutation {A K : Type} (key : A -> K) (ltb : K -> K -> bool)
    (l : list A) :
  Permutation (sorted_desc key ltb l) l.
Proof.
  induction l as [|x l IH]; cbn [sorted_desc fold_right]; [reflexivity|].
  fold (sorted_desc key ltb l). rewrite insert_desc_permutation, IH. reflexivity.
Qed.


Lemma rank_slots_in (clock : datetime) (common_slots : list Slot)
    (constraints : list (SchedulingConstraint float)) (context : Context)
    (max_slots : Z) (x : ScoredSlot float) :
  In x (rank_slots clock common_slots constraints context max_slots) ->
  In x (_score_slots clock common_slots constraints context).
Proof.
  unfold rank_slots, slice_to. intros Hx.
  apply (in_sorted_desc score PrimFloat.ltb).
  destruct (0 <=? max_slots); eapply in_firstn; exact Hx.
Qed.


Section Search.
Context {W : Type} {system : System W} {availability : CalendarAvailability W}
  {zones : TimeZones}.


End Search.

(** X17. The number of ranked slots: with a [max_slots] that is not negative,
    the smaller of [max_slots] and the number of slots; with a negative
    [max_slots], which Python reads as a position from the end, all the slots
    but the last [- max_slots]. *)
Theorem ranking_length (clock : datetime) (common_slots : list Slot)
    (constraints : list (SchedulingConstraint float)) (context : Context)
    (max_slots : Z) :
  length (rank_slots clock common_slots constraints context max_slots)
  = if 0 <=? max_slots
    then Nat.min (Z.to_nat max_slots) (length common_slots)
    else (length common_slots - Z.to_nat (- max_slots))%nat.
Proof.
  unfold rank_slots, slice_to.
  pose proof (Permutation_length
                (sorted_desc_permutation score PrimFloat.ltb
                   (_score_slots clock common_slots constraints context))) as Hlen.
  unfold _score_slots in Hlen at 2. rewrite length_map in Hlen.
  destruct (0 <=? max_slots); rewrite length_firstn, Hlen; lia.
Qed.

Lemma StronglySorted_app_cross {A : Type} (R : A -> A -> Prop) (l1 l2 : list A) :
  StronglySorted R (l1 ++ l2) ->
  forall a b, In a l1 -> In b l2 -> R a b.
Proof.
  induction l1 as [|x l1 IH]; cbn [app]; intros Hsorted a b Ha Hb; [destruct Ha|].
  inversion Hsorted as [|? ? Hrest Hx]; subst.
  destruct Ha as [-> | Ha].
  - rewrite List.Forall_forall in Hx. apply Hx. apply in_or_app. right. assumption.
  - apply IH; assumption.
Qed.

Lemma StronglySorted_any {A : Type} (l : list A) :
  StronglySorted (fun _ _ => True) l.
Proof.
  induction l as [|a l IH]; constructor; [assumption|].
  apply List.Forall_forall. intros; exact I.
Qed.

(** X18. What [max_slots] cuts off is never better than what it keeps: a
    common slot that is not among the ranked slots scores no more than any
    ranked slot.  Scores are numbers (not NaN) and [max_slots] is a count. *)
Theorem slots_cut_score_no_higher (clock : datetime) (common_slots : list Slot)
    (constraints : list (SchedulingConstraint float)) (context : Context)
    (max_slots : Z) (kept : ScoredSlot float) (slot : Slot) :
  Forall (fun x => PrimFloat.is_nan (score x) = false)
    (_score_slots clock common_slots constraints context) ->
  0 <= max_slots ->
  In kept (rank_slots clock common_slots constraints context max_slots) ->
  In slot common_slots ->
  ~ In slot
      (map slot_of (rank_slots clock common_slots constraints context max_slots)) ->
  PrimFloat.leb (score (score_slot clock constraints context slot)) (score kept)
  = true.
Proof.
  intros Hnan Hmax Hkept Hslot Hcut.
  pose proof (rank_slots_in _ _ _ _ _ _ Hkept) as Hkept_scored.
  revert Hkept Hcut. unfold rank_slots, slice_to.
  apply Z.leb_le in Hmax. rewrite Hmax.
  set (scored := _score_slots clock common_slots constraints context) in *.
  set (sorted := sorted_desc score PrimFloat.ltb scored).
  intros Hkept Hcut.
  pose proof (sorted_desc_ranked score PrimFloat.ltb
                (fun k => PrimFloat.is_nan k = false) (fun _ _ => True)
                float_ltb_asym float_ltb_negtrans scored Hnan
                (StronglySorted_any scored)) as Hranked.
  fold sorted in Hranked.
  rewrite <- (firstn_skipn (Z.to_nat max_slots) sorted) in Hranked.
  assert (In (score_slot clock constraints context slot) sorted) as Hin.
  { apply (in_sorted_desc score PrimFloat.ltb). unfold scored, _score_slots.
    apply in_map. assumption. }
  rewrite <- (firstn_skipn (Z.to_nat max_slots) sorted) in Hin.
  apply in_app_or in Hin. destruct Hin as [Hin | Hin].
  - exfalso. apply Hcut. apply in_map_iff.
    exists (score_slot clock constraints context slot).
    split; [apply score_of_score_slot_slot | assumption].
  - destruct (StronglySorted_app_cross _ _ _ Hranked _ _ Hkept Hin) as [Hge _].
    rewrite List.Forall_forall in Hnan.
    apply float_leb_of_not_ltb; [apply Hnan; assumption | | assumption].
    apply Hnan. unfold scored, _score_slots. apply in_map. assumption.
Qed.

Lemma slots_cut_score_no_higher_witness :
  PrimFloat.leb
    (score (score_slot two_days_before morning_constraints utc_context
              afternoon_slot))
    (score (score_slot two_days_before morning_constraints utc_context
              (mkSlot (at_hour 9) (at_hour 10) 60)))
  = true.
Proof.
  refine (slots_cut_score_no_higher two_days_before
            [afternoon_slot; mkSlot (at_hour 9) (at_hour 10) 60]
            morning_constraints utc_context 1
            (score_slot two_days_before morning_constraints utc_context
               (mkSlot (at_hour 9) (at_hour 10) 60))
            afternoon_slot _ _ _ _ _).
  - vm_compute. repeat constructor.
  - lia.
  - vm_compute. left. reflexivity.
  - left. reflexivity.
  - vm_compute. intros [H|[]]. discriminate H.
Defined.

End RankingFacts.

(** ** Searching for and booking an interview *)

Section SchedulingFacts.
Import InterviewScheduler CandidateSchedulingService.
Context {W : Type} {system : System W} {availability : CalendarAvailability W}
  {calendar : CalendarEvents W} {zones : TimeZones}.

Lemma enrich_slots_run (job_id candidate_id : string)
    (interviewer_ids : list string) (slots : list (ScoredSlot float)) :
  forall env : Env W,
  exists (enriched : list EnrichedSlot) (env' : Env W),
    enrich_slots job_id candidate_id interviewer_ids slots env
    = (Return enriched, env') /\
    calls env' = calls env /\
    map ranked enriched = slots /\
    Forall (tagged job_id candidate_id interviewer_ids) enriched.
Proof.
  induction slots as [|slot slots IH]; intros env.
  - exists [], env. repeat split; constructor.
  - cbn [enrich_slots]. rewrite bind_unfold.
    unfold _generate_slot_id. rewrite bind_unfold. unfold get_now at 1.
    rewrite bind_unfold. unfold draw at 1.
    destruct (randint (world env) 1000 9999) as [n w].
    cbn [mret M_ret]. rewrite bind_unfold.
    destruct (IH (mkEnv w (calls env)))
      as [enriched [env' [Hrun [Hcalls [Hmap Htags]]]]].
    rewrite Hrun. eexists. exists env'. split; [reflexivity|].
    split; [exact Hcalls|]. split.
    + cbn [map ranked]. rewrite Hmap. reflexivity.
    + constructor; [repeat split | assumption].
Qed.

(** X19. A search for interview slots is the constraint search over the
    interviewers followed by the candidate (left out when the id is empty),
    with no explicit constraint.  It raises when that search raises; otherwise
    it returns the ranked slots in their order, each with the job, the
    candidate and the interviewers of the request, and drawing the slot ids
    calls no collaborator. *)
Theorem interview_slots_are_the_ranked_slots (self : InterviewScheduler.t W)
    (job_id candidate_id : string) (interviewer_ids : list string)
    (duration_minutes : Z) (date_range : datetime * datetime)
    (preferences : option Preferences) (timezone : string) (max_slots : Z)
    (env : Env W) :
  match ConstraintBasedScheduler.find_available_slots (scheduler self)
          (participants_of candidate_id interviewer_ids) duration_minutes
          date_range [] preferences timezone max_slots env with
  | (Raise e, env1) =>
      find_available_slots self job_id candidate_id interviewer_ids
        duration_minutes date_range preferences timezone max_slots env
      = (Raise e, env1)
  | (Return ranked_slots, env1) =>
      exists (enriched : list EnrichedSlot) (env' : Env W),
        find_available_slots self job_id candidate_id interviewer_ids
          duration_minutes date_range preferences timezone max_slots env
        = (Return enriched, env') /\
        map ranked enriched = ranked_slots /\
        Forall (tagged job_id candidate_id interviewer_ids) enriched /\
        calls env' = calls env1
  end.
Proof.
  unfold find_available_slots, participants_of. rewrite bind_unfold.
  destruct (ConstraintBasedScheduler.find_available_slots _ _ _ _ _ _ _ _ env)
    as [[ranked_slots|e] env1]; [|reflexivity].
  destruct (enrich_slots_run job_id candidate_id interviewer_ids ranked_slots env1)
    as [enriched [env' [Hrun [Hcalls [Hmap Htags]]]]].
  exists enriched, env'. repeat split; assumption.
Qed.

Lemma odict_set_keys_inv {V : Type} (k u : string) (v : V) (d : odict V) :
  In u (odict_keys (odict_set k v d)) -> u = k \/ In u (odict_keys d).
Proof.
  unfold odict_keys. intros Hin. apply in_map_iff in Hin.
  destruct Hin as [[u' v'] [<- Hin]]. cbn [fst].
  apply odict_set_in in Hin. destruct Hin as [[-> _] | Hin]; [left; reflexivity|].
  right. apply in_map_iff. exists (u', v'). split; [reflexivity | assumption].
Qed.

(** The loop over the interviewers asks for an event for each of them, in
    order, whatever the calendar answers, and never raises. *)
Lemma create_interviewer_events_run (interviewer_ids : list string)
    (event_details : EventDetails) :
  forall (events : odict Event) (env : Env W),
  exists (events' : odict Event) (env' : Env W),
    create_interviewer_events interviewer_ids event_details events env
    = (Return events', env') /\
    calls env' = calls env
                 ++ map (fun i => CreateEvent i event_details) interviewer_ids /\
    (forall p, In p (odict_keys events') ->
               In p (odict_keys events) \/ In p interviewer_ids).
Proof.
  induction interviewer_ids as [|i rest IH]; intros events env.
  - exists events, env. split; [reflexivity|]. split.
    + cbn [map]. symmetry. apply List.app_nil_r.
    + intros p Hp. left. assumption.
  - cbn [create_interviewer_events]. rewrite bind_unfold.
    unfold try_except at 1. rewrite bind_unfold. unfold invoke at 1.
    destruct (create_event (world env) i event_details) as [[event|ex] w];
      cbn [mret M_ret].
    + destruct (IH (odict_set i event events)
                  (mkEnv w (calls env ++ [CreateEvent i event_details])))
        as [events' [env' [Hrun [Hcalls Hkeys]]]].
      exists events', env'. split; [exact Hrun|]. split.
      * rewrite Hcalls. cbn [calls map]. rewrite <- app_assoc. reflexivity.
      * intros p Hp. destruct (Hkeys p Hp) as [Hold | Hrest].
        -- apply odict_set_keys_inv in Hold.
           destruct Hold as [-> | Hold]; [right; left; reflexivity | left; assumption].
        -- right. right. assumption.
    + destruct (IH events (mkEnv w (calls env ++ [CreateEvent i event_details])))
        as [events' [env' [Hrun [Hcalls Hkeys]]]].
      exists events', env'. split; [exact Hrun|]. split.
      * rewrite Hcalls. cbn [calls map]. rewrite <- app_assoc. reflexivity.
      * intros p Hp. destruct (Hkeys p Hp) as [Hold | Hrest];
          [left; assumption | right; right; assumption].
Qed.

(** [schedule_interview], run to its end: the record it returns, the keys of
    its [events] and the calls it has made. *)
Lemma schedule_interview_run (self : InterviewScheduler.t W)
    (job candidate : string) (interviewers : list string)
    (start_time end_time : datetime)
    (location interview_type additional_info timezone : string) (env : Env W) :
  exists (interview_id : string) (created : datetime) (events : odict Event)
         (details : EventDetails) (env' : Env W),
    schedule_interview self job candidate interviewers start_time end_time
      location interview_type additional_info timezone env
    = (Return
         (mkInterview interview_id job candidate interviewers (Some start_time)
            (Some end_time) (Some timezone) (Some location) (Some interview_type)
            (Some additional_info) "scheduled" (Some created) events
            (Some (("Candidate " +:+ candidate)
                   :: map (fun i => "Interviewer " +:+ i) interviewers))
            None None),
       env') /\
    (forall p, In p (odict_keys events) -> In p (interviewers ++ [candidate])) /\
    (event_start_time details = start_time /\
     event_end_time details = end_time /\
     attendees details
     = map (fun p => p +:+ "@example.com") (interviewers ++ [candidate])) /\
    calls env'
    = calls env
      ++ map (fun p => CreateEvent p details) (interviewers ++ [candidate])
      ++ match communication_service self with
         | Some _ =>
             [SendInterviewConfirmation
                (mkConfirmation interview_id job candidate interviewers
                   start_time end_time location interview_type additional_info)]
         | None => []
         end.
Proof.
  unfold schedule_interview. rewrite bind_unfold.
  unfold _generate_interview_id. rewrite bind_unfold. unfold get_now at 1.
  rewrite bind_unfold. unfold draw at 1.
  destruct (randint (world env) 1000 9999) as [n w0].
  cbn [mret M_ret]. rewrite bind_unfold.
  match goal with
  | |- context [create_interviewer_events ?i ?d ?ev ?e] =>
      destruct (create_interviewer_events_run i d ev e)
        as [events1 [env1 [Hrun [Hcalls Hkeys]]]];
      rewrite Hrun; set (details := d) in *
  end.
  cbn [calls] in Hcalls.
  assert (Hkeys1 : forall p, In p (odict_keys events1) -> In p interviewers).
  { intros p Hp. destruct (Hkeys p Hp) as [[] | Hin]. assumption. }
  rewrite bind_unfold. unfold try_except at 1. rewrite bind_unfold.
  unfold invoke at 1.
  assert (Hdetails :
            event_start_time details = start_time /\
            event_end_time details = end_time /\
            attendees details
            = map (fun p => p +:+ "@example.com") (interviewers ++ [candidate])).
  { unfold details. cbn [event_start_time event_end_time attendees].
    rewrite map_app. repeat split. }
  destruct (create_event (world env1) candidate details) as [[event|ex] w1];
    cbn [mret M_ret]; rewrite bind_unfold;
    (destruct (communication_service self) as [service|];
     [ unfold try_except at 1, invoke at 1;
       match goal with
       | |- context [send_interview_confirmation ?s ?w ?c] =>
           destruct (send_interview_confirmation s w c) as [[[]|ex'] w2]
       end
     | ]);
    cbn [mret M_ret world calls]; rewrite bind_unfold; unfold get_now at 1;
    cbn [mret M_ret world calls];
    (do 5 eexists; split; [reflexivity|];
     split;
     [ intros p Hp;
       try (apply odict_set_keys_inv in Hp; destruct Hp as [-> | Hp]);
       apply in_or_app; first [ right; left; reflexivity | left; apply Hkeys1; exact Hp ]
     | split; [exact Hdetails|];
       rewrite Hcalls, map_app; cbn [map];
       rewrite <- ?app_assoc; reflexivity ]).
Qed.

(** X20. Scheduling an interview is best effort: it never raises and always
    returns an interview with the status scheduled and the job, candidate,
    interviewers and times it was given.  It asks for one calendar event for
    every interviewer, in order, and then for the candidate, all with the same
    details, whose attendees are the addresses of all of them, and then sends
    the confirmation when there is a communication service; a call that
    raises stops none of the later ones.  Only participants get an entry in
    [events]. *)
Theorem schedule_interview_is_best_effort (self : InterviewScheduler.t W)
    (job candidate : string) (interviewers : list string)
    (start_time end_time : datetime)
    (location interview_type additional_info timezone : string) (env : Env W) :
  exists (interview : Interview) (env' : Env W),
    schedule_interview self job candidate interviewers start_time end_time
      location interview_type additional_info timezone env
    = (Return interview, env') /\
    (job_id interview = job /\ candidate_id interview = candidate /\
     interviewer_ids interview = interviewers /\
     start_time_iso interview = Some start_time /\
     end_time_iso interview = Some end_time /\
     status interview = "scheduled") /\
    (forall p, In p (odict_keys (events interview)) ->
               In p (interviewers ++ [candidate])) /\
    exists details : EventDetails,
      (event_start_time details = start_time /\
       event_end_time details = end_time /\
       attendees details
       = map (fun p => p +:+ "@example.com") (interviewers ++ [candidate])) /\
      calls env'
      = calls env
        ++ map (fun p => CreateEvent p details) (interviewers ++ [candidate])
        ++ match communication_service self with
           | Some _ =>
               [SendInterviewConfirmation
                  (mkConfirmation (id interview) job candidate interviewers
                     start_time end_time location interview_type additional_info)]
           | None => []
           end.
Proof.
  destruct (schedule_interview_run self job candidate interviewers start_time
              end_time location interview_type additional_info timezone env)
    as [interview_id [created [events [details [env' [Hrun [Hkeys [Hdetails Hcalls]]]]]]]].
  eexists. exists env'. split; [exact Hrun|].
  split; [repeat split|].
  split; [exact Hkeys|].
  exists details. split; [exact Hdetails | exact Hcalls].
Qed.

End SchedulingFacts.

(** ** Tokens, listed slots and confirmations *)

Section CandidateFacts.
Import InterviewScheduler CandidateSchedulingService.
Context {W : Type} {system : System W} {availability : CalendarAvailability W}
  {calendar : CalendarEvents W} {zones : TimeZones}.

(** X21. A token that was just issued is stored with the candidate, the job
    and the expiration it was issued for, in place of whatever was stored
    under the same name; the stored slots are untouched and no collaborator is
    called.  From then on the token validates to that data at every instant up
    to and including its expiration, and is refused as expired after it, also
    when it was issued with an expiration already past. *)
Theorem issued_token_validates (self : t W) (candidate job : string)
    (expires : datetime) (env : Env W) :
  exists (token : string) (created : datetime),
    let o := generate_scheduling_token self candidate job expires env in
    let data := mkTokenData candidate job expires created in
    answer o = Return token /\
    tokens (service_after o) = <[token := data]> (tokens self) /\
    available_slots (service_after o) = available_slots self /\
    calls (env_after o) = calls env /\
    forall env2 : Env W,
      validate_token (service_after o) token env2
      = (if expires <? now (world env2)
         then Raise (ValueError "Token expired") else Return data,
         env2).
Proof.
  destruct (randint (world env) 100000 999999) as [n w] eqn:Hdraw.
  set (token := "token_" +:+ string_of_Z (timestamp (now (world env))) +:+ "_"
                +:+ string_of_Z n).
  exists token, (now w). cbn zeta.
  assert (generate_scheduling_token self candidate job expires env
          = (Return token,
             mk (interview_scheduler self)
                (<[token := mkTokenData candidate job expires (now w)]> (tokens self))
                (available_slots self),
             mkEnv w (calls env))) as ->.
  { unfold generate_scheduling_token. rewrite bind_unfold.
    unfold _generate_token. rewrite bind_unfold. unfold get_now at 1.
    rewrite bind_unfold. unfold draw at 1. rewrite Hdraw. reflexivity. }
  unfold answer, service_after, env_after. cbn [fst snd tokens available_slots calls].
  do 4 (split; [reflexivity|]). intros env2. unfold validate_token. cbn [tokens].
  rewrite lookup_insert_eq, bind_unfold. unfold get_now. cbn [expiration].
  destruct (expires <? now (world env2)); reflexivity.
Qed.

Lemma validate_token_expired (self : t W) (token : string) (data : TokenData)
    (env : Env W) :
  tokens self !! token = Some data ->
  expiration data < now (world env) ->
  validate_token self token env = (Raise (ValueError "Token expired"), env).
Proof.
  unfold validate_token. intros -> Hlate. apply Z.ltb_lt in Hlate.
  rewrite bind_unfold. unfold get_now. rewrite Hlate. reflexivity.
Qed.

(** X22. With a token whose expiration has passed, listing the slots and
    confirming a slot both raise [ValueError("Token expired")] and change
    nothing: no call is made, and the expired token and the slots stored for
    it stay in the service. *)
Theorem expired_token_is_refused (self : t W) (token slot_id : string)
    (data : TokenData) (env : Env W) :
  tokens self !! token = Some data ->
  expiration data < now (world env) ->
  get_available_slots self token env
  = (Raise (ValueError "Token expired"), self, env) /\
  confirm_slot self token slot_id env
  = (Raise (ValueError "Token expired"), self, env).
Proof.
  intros Htoken Hlate. split.
  - unfold get_available_slots.
    rewrite bind_unfold, (validate_token_expired _ _ _ _ Htoken Hlate). reflexivity.
  - unfold confirm_slot.
    rewrite bind_unfold, (validate_token_expired _ _ _ _ Htoken Hlate). reflexivity.
Qed.

Lemma find_slot_none (slots : list EnrichedSlot) (sid : string) :
  Forall (fun s => slot_id s <> sid) slots -> find_slot slots sid = None.
Proof.
  unfold find_slot. induction 1 as [|s slots Hs _ IH]; cbn [find]; [reflexivity|].
  destruct (String.eqb_spec (slot_id s) sid); [contradiction | exact IH].
Qed.

(** X23. With a valid token and a slot id that none of the slots stored for
    the token has, [confirm_slot] raises [ValueError("Invalid slot ID")] and
    changes nothing: the token and its slots stay, so the candidate can try
    again. *)
Theorem unknown_slot_id_is_refused (self : t W) (token sid : string)
    (data : TokenData) (slots : list EnrichedSlot) (env : Env W) :
  tokens self !! token = Some data ->
  now (world env) <= expiration data ->
  available_slots self !! token = Some slots ->
  Forall (fun s => slot_id s <> sid) slots ->
  confirm_slot self token sid env
  = (Raise (ValueError "Invalid slot ID"), self, env).
Proof.
  intros Htoken Hfresh Hslots Hnone. apply Z.ltb_ge in Hfresh.
  unfold confirm_slot.
  rewrite bind_unfold, (validate_token_valid _ _ _ _ Htoken Hfresh), Hslots,
    (find_slot_none _ _ Hnone).
  reflexivity.
Qed.

Lemma find_slot_some (slots : list EnrichedSlot) (sid : string) (x : EnrichedSlot) :
  In x slots -> slot_id x = sid ->
  exists selected,
    find_slot slots sid = Some selected /\
    In selected slots /\ slot_id selected = sid /\
    (List.NoDup (map slot_id slots) -> selected = x).
Proof.
  unfold find_slot. intros Hin Hid.
  induction slots as [|s slots IH]; [destruct Hin|]. cbn [find].
  destruct (String.eqb_spec (slot_id s) sid) as [Hs | Hs].
  - exists s. split; [reflexivity|]. split; [left; reflexivity|].
    split; [assumption|]. intros Hnodup.
    destruct Hin as [-> | Hin]; [reflexivity|].
    cbn [map] in Hnodup. apply NoDup_cons_iff in Hnodup.
    destruct Hnodup as [Hnotin _].
    exfalso. apply Hnotin. rewrite Hs, <- Hid. apply in_map. assumption.
  - destruct Hin as [-> | Hin]; [contradiction|].
    destruct (IH Hin) as [selected [Hfind [Hsel [Hsid Huniq]]]].
    exists selected. split; [assumption|]. split; [right; assumption|].
    split; [assumption|]. intros Hnodup. apply Huniq.
    cbn [map] in Hnodup. apply NoDup_cons_iff in Hnodup. apply Hnodup.
Qed.

(** [confirm_slot] when the token is valid and the search for the slot id
    finds a slot. *)
Lemma confirm_slot_found (self : t W) (token sid : string) (data : TokenData)
    (slots : list EnrichedSlot) (selected : EnrichedSlot) (env : Env W) :
  tokens self !! token = Some data ->
  (expiration data <? now (world env)) = false ->
  available_slots self !! token = Some slots ->
  find_slot slots sid = Some selected ->
  exists (interview : Interview) (env' : Env W),
    confirm_slot self token sid env
    = (Return interview,
       mk (interview_scheduler self) (delete token (tokens self))
          (delete token (available_slots self)),
       env') /\
    candidate_id interview = token_candidate_id data /\
    job_id interview = token_job_id data /\
    interviewer_ids interview = slot_interviewer_ids selected /\
    start_time_iso interview = Some (start_time (slot_of (ranked selected))) /\
    end_time_iso interview = Some (end_time (slot_of (ranked selected))) /\
    status interview = "scheduled".
Proof.
  intros Htoken Hfresh Hslots Hfind. unfold confirm_slot.
  rewrite bind_unfold, (validate_token_valid _ _ _ _ Htoken Hfresh), Hslots, Hfind.
  match goal with
  | |- context [schedule_interview ?s ?j ?c ?i ?st ?en ?l ?ty ?info ?tz ?e] =>
      destruct (schedule_interview_run s j c i st en l ty info tz e)
        as [interview_id [created [events [details [env' [Hrun _]]]]]];
      rewrite Hrun
  end.
  eexists. exists env'. split; [reflexivity|]. repeat split.
Qed.

(** X24. With a valid token and the id of a slot stored for it,
    [confirm_slot] schedules an interview for the candidate and the job of the
    token, with the interviewers and the times of the first stored slot that
    has this id (the slot meant, when the stored ids are distinct), and then
    forgets the token and its slots; other tokens are untouched. *)
Theorem confirm_slot_books_the_selected_slot (self : t W) (token sid : string)
    (data : TokenData) (slots : list EnrichedSlot) (x : EnrichedSlot)
    (env : Env W) :
  tokens self !! token = Some data ->
  now (world env) <= expiration data ->
  available_slots self !! token = Some slots ->
  In x slots -> slot_id x = sid ->
  exists (selected : EnrichedSlot) (interview : Interview) (env' : Env W),
    (In selected slots /\ slot_id selected = sid /\
     (List.NoDup (map slot_id slots) -> selected = x)) /\
    confirm_slot self token sid env
    = (Return interview,
       mk (interview_scheduler self) (delete token (tokens self))
          (delete token (available_slots self)),
       env') /\
    candidate_id interview = token_candidate_id data /\
    job_id interview = token_job_id data /\
    interviewer_ids interview = slot_interviewer_ids selected /\
    start_time_iso interview = Some (start_time (slot_of (ranked selected))) /\
    end_time_iso interview = Some (end_time (slot_of (ranked selected))) /\
    status interview = "scheduled".
Proof.
  intros Htoken Hfresh Hslots Hin Hid. apply Z.ltb_ge in Hfresh.
  destruct (find_slot_some slots sid x Hin Hid)
    as [selected [Hfind [Hsel [Hsid Huniq]]]].
  destruct (confirm_slot_found self token sid data slots selected env Htoken Hfresh
              Hslots Hfind) as [interview [env' [Hrun Hfields]]].
  exists selected, interview, env'.
  split; [repeat split; assumption|].
  split; [exact Hrun | exact Hfields].
Qed.

Lemma find_available_slots_tagged (self : InterviewScheduler.t W)
    (job candidate : string) (interviewers : list string) (d : Z)
    (date_range : datetime * datetime) (preferences : option Preferences)
    (tz : string) (max_slots : Z) (env env' : Env W)
    (enriched : list EnrichedSlot) :
  find_available_slots self job candidate interviewers d date_range preferences
    tz max_slots env = (Return enriched, env') ->
  Forall (tagged job candidate interviewers) enriched.
Proof.
  unfold find_available_slots. rewrite bind_unfold.
  destruct (ConstraintBasedScheduler.find_available_slots _ _ _ _ _ _ _ _ env)
    as [[ranked_slots|e] env1]; [|discriminate].
  destruct (enrich_slots_run job candidate interviewers ranked_slots env1)
    as [enriched' [env2 [Hrun [_ [_ Htags]]]]].
  rewrite Hrun. intros Heq. injection Heq as <- _. assumption.
Qed.

(** X25. Listing and then confirming: every slot that [get_available_slots]
    returned for a token can be confirmed by its id, at any later instant up
    to the expiration of the token and in any world.  The interview is for the
    candidate and the job of the token, with the two interviewers of the
    listing and the times of a listed slot, and the token is gone afterwards. *)
Theorem listed_slot_can_be_booked (self : t W) (token : string)
    (data : TokenData) (env env2 : Env W) (slots : list EnrichedSlot)
    (x : EnrichedSlot) :
  tokens self !! token = Some data ->
  answer (get_available_slots self token env) = Return slots ->
  In x slots ->
  now (world env2) <= expiration data ->
  exists (selected : EnrichedSlot) (interview : Interview),
    In selected slots /\ slot_id selected = slot_id x /\
    answer (confirm_slot (service_after (get_available_slots self token env))
              token (slot_id x) env2)
    = Return interview /\
    candidate_id interview = token_candidate_id data /\
    job_id interview = token_job_id data /\
    interviewer_ids interview = ["interviewer_11111"; "interviewer_22222"] /\
    start_time_iso interview = Some (start_time (slot_of (ranked selected))) /\
    end_time_iso interview = Some (end_time (slot_of (ranked selected))) /\
    tokens (service_after
              (confirm_slot (service_after (get_available_slots self token env))
                 token (slot_id x) env2)) !! token = None.
Proof.
  intros Htoken Hlisted Hin Hfresh.
  unfold answer, service_after in *. rewrite get_available_slots_run in *.
  rewrite Htoken in *.
  destruct (expiration data <? now (world env)); [discriminate|].
  destruct (find_available_slots _ _ _ _ _ _ _ _ _ env) as [[found|ex] env1] eqn:Hfound;
    [|discriminate].
  cbn [fst snd] in *. injection Hlisted as ->.
  pose proof (find_available_slots_tagged _ _ _ _ _ _ _ _ _ _ _ _ Hfound) as Htags.
  apply Z.ltb_ge in Hfresh.
  destruct (find_slot_some slots (slot_id x) x Hin eq_refl)
    as [selected [Hfind [Hsel [Hsid _]]]].
  match goal with
  | |- context [confirm_slot ?s token (slot_id x) env2] =>
      destruct (confirm_slot_found s token (slot_id x) data slots selected env2)
        as [interview [env' [Hrun Hfields]]];
      [ exact Htoken | exact Hfresh | apply lookup_insert_eq | exact Hfind | ];
      rewrite Hrun
  end.
  destruct Hfields as [Hcand [Hjob [Hints [Hstart [Hend _]]]]].
  exists selected, interview. cbn [fst snd tokens].
  rewrite List.Forall_forall in Htags.
  destruct (Htags selected Hsel) as [_ [_ Htag]].
  repeat split; try assumption.
  - rewrite Hints. exact Htag.
  - apply lookup_delete_eq.
Qed.

End CandidateFacts.

(** ** The same on the mock calendar of the module's example *)

Section MockBooking.
Import InterviewScheduler CandidateSchedulingService.

Lemma expired_token_is_refused_witness :
  get_available_slots (zones := utc_zones) (service_after mock_listed) mock_token
    mock_env_expired
  = (Raise (ValueError "Token expired"), service_after mock_listed, mock_env_expired) /\
  confirm_slot (service_after mock_listed) mock_token mock_slot_id mock_env_expired
  = (Raise (ValueError "Token expired"), service_after mock_listed, mock_env_expired).
Proof.
  refine (expired_token_is_refused (zones := utc_zones) (service_after mock_listed)
            mock_token mock_slot_id mock_token_data mock_env_expired _ _).
  - vm_compute. reflexivity.
  - vm_compute. reflexivity.
Defined.

Lemma unknown_slot_id_is_refused_witness :
  confirm_slot (service_after mock_listed) mock_token "slot_0"
    (env_after mock_listed)
  = (Raise (ValueError "Invalid slot ID"), service_after mock_listed,
     env_after mock_listed).
Proof.
  refine (unknown_slot_id_is_refused (service_after mock_listed) mock_token
            "slot_0" mock_token_data mock_first_list (env_after mock_listed)
            _ _ _ _).
  - vm_compute. reflexivity.
  - vm_compute. discriminate.
  - vm_compute. reflexivity.
  - repeat constructor; vm_compute; discriminate.
Defined.

Lemma confirm_slot_books_the_selected_slot_witness :
  exists (selected : EnrichedSlot) (interview : Interview) (env' : Env MockWorld),
    (In selected mock_first_list /\ slot_id selected = mock_slot_id /\
     (List.NoDup (map slot_id mock_first_list) -> selected = mock_first_slot)) /\
    confirm_slot (service_after mock_listed) mock_token mock_slot_id
      (env_after mock_listed)
    = (Return interview,
       mk (interview_scheduler (service_after mock_listed))
          (delete mock_token (tokens (service_after mock_listed)))
          (delete mock_token (available_slots (service_after mock_listed))),
       env') /\
    candidate_id interview = token_candidate_id mock_token_data /\
    job_id interview = token_job_id mock_token_data /\
    interviewer_ids interview = slot_interviewer_ids selected /\
    start_time_iso interview = Some (start_time (slot_of (ranked selected))) /\
    end_time_iso interview = Some (end_time (slot_of (ranked selected))) /\
    status interview = "scheduled".
Proof.
  refine (confirm_slot_books_the_selected_slot (service_after mock_listed)
            mock_token mock_slot_id mock_token_data mock_first_list
            mock_first_slot (env_after mock_listed) _ _ _ _ _).
  - vm_compute. reflexivity.
  - vm_compute. discriminate.
  - vm_compute. reflexivity.
  - left. reflexivity.
  - reflexivity.
Defined.

Lemma listed_slot_can_be_booked_witness :
  exists (selected : EnrichedSlot) (interview : Interview),
    In selected mock_first_list /\ slot_id selected = slot_id mock_first_slot /\
    answer (confirm_slot
              (service_after
                 (get_available_slots (zones := utc_zones)
                    (service_after mock_issued) mock_token (env_after mock_issued)))
              mock_token (slot_id mock_first_slot) (env_after mock_listed))
    = Return interview /\
    candidate_id interview = token_candidate_id mock_token_data /\
    job_id interview = token_job_id mock_token_data /\
    interviewer_ids interview = ["interviewer_11111"; "interviewer_22222"] /\
    start_time_iso interview = Some (start_time (slot_of (ranked selected))) /\
    end_time_iso interview = Some (end_time (slot_of (ranked selected))) /\
    tokens (service_after
              (confirm_slot
                 (service_after
                    (get_available_slots (zones := utc_zones)
                       (service_after mock_issued) mock_token
                       (env_after mock_issued)))
                 mock_token (slot_id mock_first_slot) (env_after mock_listed)))
      !! mock_token = None.
Proof.
  refine (listed_slot_can_be_booked (zones := utc_zones) (service_after mock_issued)
            mock_token mock_token_data (env_after mock_issued)
            (env_after mock_listed) mock_first_list mock_first_slot _ _ _ _).
  - vm_compute. reflexivity.
  - vm_compute. reflexivity.
  - left. reflexivity.
  - vm_compute. discriminate.
Defined.

End MockBooking.

(** ** Availability from a Microsoft calendar *)

Section MicrosoftAvailability.
Import MicrosoftCalendarIntegration.
Context {zones : TimeZones} {parser : TimeParser}.







Lemma existsb_eqb_in (name : string) (names : list string) :
  existsb (String.eqb name) names = true <-> In name names.
Proof.
  rewrite existsb_exists. split.
  - intros [x [Hx Heq]]. apply String.eqb_eq in Heq. subst x. assumption.
  - intros Hin. exists name. split; [assumption | apply String.eqb_refl].
Qed.

(** X28. The working hours a Microsoft slot must start in: the day of the
    slot, by its name, is one of the working days, and its time of day lies
    between the start and the end of the working hours, both included, so that
    a slot may start at the very end of the working hours.  Without working
    hours in the response, the working days are Monday to Friday and the
    hours 09:00 to 17:00; a missing start or end is 09:00 or 17:00.  The check
    raises exactly when a start or an end that is given does not parse. *)
Theorem working_hours_include_both_ends (time : datetime)
    (working_hours : option WorkingHours) (timezone : string) :
  (_is_within_working_hours time working_hours timezone = Some true
   <-> In (day_name (weekday_of timezone time)) (working_days working_hours) /\
       exists from to : Z,
         working_from working_hours = Some from /\
         working_until working_hours = Some to /\
         from <= time_of_day timezone time <= to) /\
  (_is_within_working_hours time working_hours timezone = None
   <-> working_from working_hours = None \/ working_until working_hours = None).
Proof.
  unfold _is_within_working_hours, parse_working_hours.
  assert (0 <= weekday_of timezone time < 7) as Hday
    by (unfold weekday_of; apply Z.mod_pos_bound; lia).
  set (d := weekday_of timezone time) in *.
  set (tod := time_of_day timezone time).
  assert (d = 0 \/ d = 1 \/ d = 2 \/ d = 3 \/ d = 4 \/ d = 5 \/ d = 6) as Hcases
    by lia.
  clearbody d tod.
  assert (forall (b : bool) (from to : Z) (P : Prop),
            (b = true <-> P) ->
            (Some (b && ((from <=? tod) && (tod <=? to))) = Some true
             <-> P /\ exists from' to' : Z,
                   Some from = Some from' /\ Some to = Some to' /\
                   from' <= tod <= to')) as Hboth.
  { intros b from to P Hb. split.
    - intros Heq. injection Heq as Heq.
      apply andb_true_iff in Heq. destruct Heq as [Hday' Hhours].
      apply andb_true_iff in Hhours. rewrite !Z.leb_le in Hhours.
      split; [apply Hb; assumption|]. exists from, to. repeat split; lia.
    - intros [HP [from' [to' [Hfrom [Hto Hhours]]]]].
      injection Hfrom as <-. injection Hto as <-. f_equal.
      apply andb_true_iff. split; [apply Hb; assumption|].
      apply andb_true_iff. rewrite !Z.leb_le. lia. }
  destruct working_hours as [[names from to]|];
    cbn [working_days working_from working_until daysOfWeek startTime endTime].
  - destruct (match from with Some s => strptime s | None => Some (o_clock 9) end)
      as [from'|] eqn:Hfrom;
      [destruct (match to with Some s => strptime s | None => Some (o_clock 17) end)
         as [to'|] eqn:Hto|].
    + assert (working_from (Some (mkWorkingHours names from to)) = Some from') as Hwf
        by (destruct from; exact Hfrom).
      assert (working_until (Some (mkWorkingHours names from to)) = Some to') as Hwu
        by (destruct to; exact Hto).
      cbn [working_from working_until] in Hwf, Hwu.
      split.
      * destruct from as [from|], to as [to|]; rewrite ?Hwf, ?Hwu;
          apply Hboth;
          (destruct Hcases as [-> | [-> | [-> | [-> | [-> | [-> | ->]]]]]];
           cbv [Z.eqb Z.add Pos.eqb Pos.add Pos.succ day_name Z.to_nat Pos.to_nat
                Pos.iter_op Init.Nat.add nth];
           apply existsb_eqb_in).
      * destruct from as [from|], to as [to|]; rewrite ?Hwf, ?Hwu;
          (split; [discriminate | intros [H | H]; discriminate H]).
    + split.
      * split; [discriminate|].
        intros [_ [from'' [to'' [_ [Hu _]]]]].
        destruct to as [to|]; cbn [working_until] in Hu; congruence.
      * split; [|reflexivity]. intros _. right.
        destruct to as [to|]; cbn [working_until]; congruence.
    + split.
      * split; [discriminate|].
        intros [_ [from'' [to'' [Hf _]]]].
        destruct from as [from|]; cbn [working_from] in Hf; congruence.
      * split; [|reflexivity]. intros _. left.
        destruct from as [from|]; cbn [working_from]; congruence.
  - split.
    + apply Hboth.
      destruct Hcases as [-> | [-> | [-> | [-> | [-> | [-> | ->]]]]]];
        cbv [Z.eqb Z.add Pos.eqb Pos.add Pos.succ day_name Z.to_nat Pos.to_nat
             Pos.iter_op Init.Nat.add nth];
        cbn [In]; intuition (try congruence; try discriminate).
    + split; [discriminate | intros [H | H]; discriminate H].
Qed.

End MicrosoftAvailability.

Section MicrosoftScenario.
Import MicrosoftCalendarIntegration.


End MicrosoftScenario.

(** ** Self-scheduling on the calendars of a CalendarService *)

Section EndToEnd.
Import InterviewScheduler CandidateSchedulingService.
Context {W : Type} {system : System W} {calendar : CalendarEvents W}
  {zones : TimeZones}.

Lemma no_common_slot_above_thirty_minutes (service : CalendarService.t)
    (user_ids : list string) (s e : datetime) (d : Z) (tz : string) :
  30 < d ->
  CalendarService.get_common_availability service user_ids s e d tz = Return [].
Proof.
  intros Hlong.
  destruct (CalendarService.get_common_availability service user_ids s e d tz)
    as [slots|ex] eqn:Hret.
  - destruct slots as [|slot slots]; [reflexivity | exfalso].
    destruct (common_slot_in_every_own _ _ _ _ _ _ _ slot Hret) as [_ [Hfit _]];
      [left; reflexivity|].
    unfold GoogleCalendarIntegration.slot_duration, minutes in Hfit. lia.
  - unfold CalendarService.get_common_availability in Hret.
    destruct (CalendarService.collect_availability service user_ids s e tz []);
      discriminate.
Qed.

(** X29. On the calendars of a CalendarService, self-scheduling never offers
    a slot: [get_available_slots] asks for 60-minute meetings, the availability
    of a participant comes in 30-minute slots, and so the list returned and
    stored for a valid token is always empty, and every confirmation that
    follows while the token is valid raises [ValueError("Invalid slot ID")]
    and books nothing. *)
Theorem self_scheduling_offers_no_slot (service : CalendarService.t) (self : t W)
    (token : string) (data : TokenData) (env : Env W) :
  tokens self !! token = Some data ->
  now (world env) <= expiration data ->
  answer (get_available_slots (availability := calendar_of service) self token env)
  = Return [] /\
  forall (sid : string) (env2 : Env W),
    now (world env2) <= expiration data ->
    confirm_slot
      (service_after
         (get_available_slots (availability := calendar_of service) self token env))
      token sid env2
    = (Raise (ValueError "Invalid slot ID"),
       service_after
         (get_available_slots (availability := calendar_of service) self token env),
       env2).
Proof.
  intros Htoken Hfresh. apply Z.ltb_ge in Hfresh.
  assert (exists env' : Env W,
            get_available_slots (availability := calendar_of service) self token env
            = (Return [],
               mk (interview_scheduler self) (tokens self)
                  (<[token := []]> (available_slots self)),
               env')) as [env' ->].
  { rewrite (get_available_slots_run (availability := calendar_of service)).
    rewrite Htoken, Hfresh.
    unfold find_available_slots. rewrite bind_unfold.
    unfold ConstraintBasedScheduler.find_available_slots. rewrite bind_unfold.
    unfold invoke at 1. unfold get_common_availability, calendar_of.
    rewrite no_common_slot_above_thirty_minutes by lia.
    cbn [mret M_ret enrich_slots]. eexists. reflexivity. }
  unfold answer, service_after. cbn [fst snd].
  split; [reflexivity|].
  intros sid env2 Hfresh2. apply Z.ltb_ge in Hfresh2.
  unfold confirm_slot.
  rewrite bind_unfold.
  erewrite validate_token_valid; [|exact Htoken | exact Hfresh2].
  cbn [available_slots]. rewrite lookup_insert_eq. reflexivity.
Qed.

End EndToEnd.

Section EndToEndScenario.
Import InterviewScheduler CandidateSchedulingService.

Lemma self_scheduling_offers_no_slot_witness :
  answer (get_available_slots (availability := calendar_of scenario_service)
            (zones := utc_zones) (service_after mock_issued) mock_token
            (env_after mock_issued))
  = Return [] /\
  forall (sid : string) (env2 : Env MockWorld),
    now (world env2) <= expiration mock_token_data ->
    confirm_slot
      (service_after
         (get_available_slots (availability := calendar_of scenario_service)
            (zones := utc_zones) (service_after mock_issued) mock_token
            (env_after mock_issued)))
      mock_token sid env2
    = (Raise (ValueError "Invalid slot ID"),
       service_after
         (get_available_slots (availability := calendar_of scenario_service)
            (zones := utc_zones) (service_after mock_issued) mock_token
            (env_after mock_issued)),
       env2).
Proof.
  refine (self_scheduling_offers_no_slot (zones := utc_zones) scenario_service
            (service_after mock_issued) mock_token mock_token_data
            (env_after mock_issued) _ _).
  - vm_compute. reflexivity.
  - vm_compute. discriminate.
Defined.

End EndToEndScenario.
